(** * OrderBy: the sort operator of velox/exec/OrderBy.cpp

    A shallow embedding of the OrderBy operator: its constructor, the
    push/pull methods [addInput], [noMoreInput], [getOutput], the memory
    arbitration entry point [reclaim] and [abort].

    The operator owns a [SortBuffer] (the sort/spill engine) through a
    [std::unique_ptr]; the engine, the memory pool and the [Operator] base
    class live in other translation units and appear here as interfaces.
    Every method is a computation over the operator object that either
    returns, throws a C++ exception, or has undefined behaviour, and that
    emits the sequence of calls it makes to its collaborators. *)

From Stdlib Require Import String List ZArith NArith Bool Lia.
From ExtLib Require Import Structures.Monad.
Import ListNotations.
Import MonadNotation.
Local Open Scope monad_scope.
Local Open Scope string_scope.

Set Implicit Arguments.

(** ** Sort orders and comparison flags *)

(** [core::SortOrder]: the logical order of one sorting key. *)
Record SortOrder := mkSortOrder {
  isAscending : bool;
  isNullsFirst : bool
}.

(** Modelled from the spec: the null-handling mode of [CompareFlags]
    (declared in velox/vector, outside this file) says whether a comparison
    may stop early when it meets a null; [NoStop] never stops early. *)
Inductive NullHandlingMode := NoStop | StopAtNull.

(** Modelled from the spec: [CompareFlags] (declared in velox/vector) holds,
    in this order, the null-placement flag, the ascending flag, the
    equality-only flag and the null-handling mode. *)
Record CompareFlags := mkCompareFlags {
  nullsFirst : bool;
  ascending : bool;
  equalsOnly : bool;
  nullHandlingMode : NullHandlingMode
}.

(** OrderBy.cpp:24-30. *)
Definition fromSortOrderToCompareFlags (sortOrder : SortOrder) : CompareFlags :=
  {| nullsFirst := isNullsFirst sortOrder;
     ascending := isAscending sortOrder;
     equalsOnly := false;
     nullHandlingMode := NoStop |}.

(** ** Exceptions and outcomes *)

(** What a failed [VELOX_CHECK] throws: the stringified condition and the
    optional message.  Collaborators may throw exceptions of their own. *)
Inductive Exception :=
| VeloxRuntimeError (failedCondition message : string)
| CollaboratorError (what : string).

(** The result of a call into a collaborator (engine, base class) on the
    state [S] it may touch: it returns or throws, and in both cases leaves a
    state behind. *)
Inductive Result (S A : Type) :=
| Ok (a : A) (s : S)
| Raise (e : Exception) (s : S).
Arguments Ok {S A} a s.
Arguments Raise {S A} e s.

(** [column_index_t] is [uint32_t]. *)
Definition column_index_t := N.

(** [uint64_t] increment, as [++] performs it. *)
Definition uint64_incr (n : N) : N := ((n + 1) mod 2 ^ 64)%N.

(** [memory::MemoryReclaimer::Stats], passed to [reclaim] by reference. *)
Record ReclaimerStats := mkReclaimerStats {
  numNonReclaimableAttempts : N
}.

(** ** Collaborators

    The types below are owned by other components; the operator only stores
    them or passes them along. *)
Class Collaborators := {
  RowVector : Type;    (* a columnar batch *)
  RowType : Type;      (* the schema of a batch *)
  TypedExpr : Type;    (* [core::ITypedExpr] *)
  QueryConfig : Type;
  SpillConfig : Type;
  SpillStats : Type;
  PoolUsage : Type;    (* the mutable accounting of a [memory::MemoryPool] *)
  SortBuffer : Type    (* the state of the sort/spill engine *)
}.

Section Objects.
Context {C : Collaborators}.

(** [RowVectorPtr] is a shared pointer; [None] is [nullptr]. *)
Definition RowVectorPtr := option RowVector.

(** A memory pool: its name and its usage-tracking switch are fixed at
    creation, its accounting changes as memory is used. *)
Record MemoryPool := mkMemoryPool {
  pool_name : string;
  pool_trackUsage : bool;
  pool_usage : PoolUsage
}.

(** [core::OrderByNode], as far as the constructor reads it. *)
Record OrderByNode := mkOrderByNode {
  outputType : RowType;
  sortingKeys : list TypedExpr;
  sortingOrders : list SortOrder;
  canSpill : QueryConfig -> bool
}.

(** [DriverCtx], as far as the constructor reads it; [operatorPool] is the
    pool the [Operator] base constructor obtains for this operator. *)
Record DriverCtx := mkDriverCtx {
  queryConfig : QueryConfig;
  makeSpillConfig : Z -> option SpillConfig;
  operatorPool : MemoryPool
}.

(** The members of the [Operator] base class that OrderBy.cpp reads or
    writes. *)
Record Operator := mkOperator {
  outputType_ : RowType;
  queryConfig_ : QueryConfig;
  pool_ : MemoryPool;
  spillConfig_ : option SpillConfig;
  nonReclaimableSection_ : bool;
  noMoreInput_ : bool
}.

(** The OrderBy object; [sortBuffer_ = None] is a null [unique_ptr]. *)
Record OrderBy := mkOrderBy {
  base : Operator;
  finished_ : bool;
  numSpillRuns_ : N;
  sortBuffer_ : option SortBuffer
}.

(** What the engine reaches through the pointers it received at
    construction: the pool, [&nonReclaimableSection_], [&numSpillRuns_]. *)
Record EngineEnv := mkEngineEnv {
  env_pool : PoolUsage;
  env_nonReclaimableSection : bool;
  env_numSpillRuns : N
}.

(** The by-value arguments of the [SortBuffer] constructor. *)
Record SortBufferArgs := mkSortBufferArgs {
  sb_inputType : RowType;
  sb_sortColumnIndices : list column_index_t;
  sb_sortCompareFlags : list CompareFlags;
  sb_outputBatchRows : N;
  sb_spillConfig : option SpillConfig;
  sb_spillMemoryThreshold : N
}.

(** The calls the operator makes to its collaborators, in program order. *)
Inductive Event :=
| SortBufferCreated (args : SortBufferArgs)
| SortBufferAddInput (input : RowVectorPtr)
| SortBufferSpill (startRowIdx targetBytes : Z)
| SortBufferNoMoreInput
| SortBufferGetOutput
| SortBufferSpilledStats
| SortBufferDestroyed
| OperatorAbort
| OperatorRecordSpillStats (stats : SpillStats)
| PoolRelease
| LogWarning (message : string).

(** A call into the engine: one of its methods. *)
Definition isEngineCall (ev : Event) : bool :=
  match ev with
  | SortBufferCreated _ | SortBufferAddInput _ | SortBufferSpill _ _
  | SortBufferNoMoreInput | SortBufferGetOutput | SortBufferSpilledStats
  | SortBufferDestroyed => true
  | _ => false
  end.

(** What a method of the operator does to the object [S] it runs on. *)
Inductive Outcome (S A : Type) :=
| Returns (a : A) (this : S) (calls : list Event)
| Throws (e : Exception) (this : S) (calls : list Event)
| Undefined.   (* null [unique_ptr] dereference, [operator[]] past the end *)

Definition engineState : Type := SortBuffer * EngineEnv.
End Objects.

Arguments Returns {C S A} a this calls.
Arguments Throws {C S A} e this calls.
Arguments Undefined {C S A}.

(** The operations of the collaborators.  The engine's methods may throw
    ([OutOfMemory], a spill I/O failure); the helpers are plain functions. *)
Class CollaboratorOps {C : Collaborators} := {
  (* velox/exec/OperatorUtils *)
  kConstantChannel : column_index_t;
  exprToChannel : TypedExpr -> RowType -> column_index_t;
  succinctBytes : Z -> string;
  (* core::QueryConfig, Operator::outputBatchRows *)
  orderBySpillMemoryThreshold : QueryConfig -> N;
  outputBatchRows : QueryConfig -> N;
  (* memory::MemoryPool *)
  currentBytes : PoolUsage -> Z;
  reservedBytes : PoolUsage -> Z;
  release : PoolUsage -> PoolUsage;
  (* Operator::abort, the base-class hook *)
  Operator_abort : Operator -> Result Operator unit;
  (* SortBuffer *)
  SortBuffer_new : SortBufferArgs -> EngineEnv -> Result EngineEnv SortBuffer;
  SortBuffer_addInput : RowVectorPtr -> engineState -> Result engineState unit;
  SortBuffer_spill : Z -> Z -> engineState -> Result engineState unit;
  SortBuffer_noMoreInput : engineState -> Result engineState unit;
  SortBuffer_getOutput : engineState -> Result engineState RowVectorPtr;
  SortBuffer_spilledStats : SortBuffer -> option SpillStats;
  SortBuffer_delete : engineState -> EngineEnv
}.

(** ** The operator *)
Section Methods.
Context {C : Collaborators} {Ops : CollaboratorOps}.

(** A method body: a computation on the object it is invoked on. *)
Definition M (A : Type) : Type := OrderBy -> Outcome OrderBy A.

Definition M_ret {A} (a : A) : M A := fun this => Returns a this [].

Definition M_bind {A B} (m : M A) (k : A -> M B) : M B :=
  fun this =>
    match m this with
    | Returns a this1 calls1 =>
        match k a this1 with
        | Returns b this2 calls2 => Returns b this2 (calls1 ++ calls2)
        | Throws e this2 calls2 => Throws e this2 (calls1 ++ calls2)
        | Undefined => Undefined
        end
    | Throws e this1 calls1 => Throws e this1 calls1
    | Undefined => Undefined
    end.

#[export] Instance Monad_M : Monad M := {| ret := @M_ret; bind := @M_bind |}.

Definition self : M OrderBy := fun this => Returns this this [].
Definition assign (f : OrderBy -> OrderBy) : M unit :=
  fun this => Returns tt (f this) [].
Definition emit (ev : Event) : M unit := fun this => Returns tt this [ev].
Definition throw {A} (e : Exception) : M A := fun this => Throws e this [].
Definition undefined {A} : M A := fun _ => Undefined.

(** Modelled from the spec: [VELOX_CHECK] (velox/common/base/Exceptions.h)
    is a fatal assertion: when the condition is false the call does not
    continue but throws, naming the failed condition. *)
Definition VELOX_CHECK (cond : bool) (expr message : string) : M unit :=
  if cond then ret tt else throw (VeloxRuntimeError expr message).

(** *** Member updates *)
Definition set_base (b : Operator) (this : OrderBy) : OrderBy :=
  {| base := b; finished_ := finished_ this;
     numSpillRuns_ := numSpillRuns_ this; sortBuffer_ := sortBuffer_ this |}.

Definition set_finished (v : bool) (this : OrderBy) : OrderBy :=
  {| base := base this; finished_ := v;
     numSpillRuns_ := numSpillRuns_ this; sortBuffer_ := sortBuffer_ this |}.

Definition set_sortBuffer (sb : option SortBuffer) (this : OrderBy) : OrderBy :=
  {| base := base this; finished_ := finished_ this;
     numSpillRuns_ := numSpillRuns_ this; sortBuffer_ := sb |}.

Definition set_pool_usage (u : PoolUsage) (b : Operator) : Operator :=
  {| outputType_ := outputType_ b; queryConfig_ := queryConfig_ b;
     pool_ := {| pool_name := pool_name (pool_ b);
                 pool_trackUsage := pool_trackUsage (pool_ b);
                 pool_usage := u |};
     spillConfig_ := spillConfig_ b;
     nonReclaimableSection_ := nonReclaimableSection_ b;
     noMoreInput_ := noMoreInput_ b |}.

Definition set_nonReclaimableSection (v : bool) (b : Operator) : Operator :=
  {| outputType_ := outputType_ b; queryConfig_ := queryConfig_ b;
     pool_ := pool_ b; spillConfig_ := spillConfig_ b;
     nonReclaimableSection_ := v; noMoreInput_ := noMoreInput_ b |}.

Definition set_noMoreInput (v : bool) (b : Operator) : Operator :=
  {| outputType_ := outputType_ b; queryConfig_ := queryConfig_ b;
     pool_ := pool_ b; spillConfig_ := spillConfig_ b;
     nonReclaimableSection_ := nonReclaimableSection_ b; noMoreInput_ := v |}.

(** *** The engine and what it shares with the operator *)

(** The cells of the operator the engine holds pointers to. *)
Definition engineEnv (this : OrderBy) : EngineEnv :=
  {| env_pool := pool_usage (pool_ (base this));
     env_nonReclaimableSection := nonReclaimableSection_ (base this);
     env_numSpillRuns := numSpillRuns_ this |}.

(** Writing back what an engine call left in those cells. *)
Definition storeEnv (env : EngineEnv) (this : OrderBy) : OrderBy :=
  {| base := set_nonReclaimableSection (env_nonReclaimableSection env)
               (set_pool_usage (env_pool env) (base this));
     finished_ := finished_ this;
     numSpillRuns_ := env_numSpillRuns env;
     sortBuffer_ := sortBuffer_ this |}.

(** [sortBuffer_->method(...)]: dereferencing a null [unique_ptr] is
    undefined behaviour; an exception of the engine propagates. *)
Definition callSortBuffer {A} (ev : Event)
    (method : engineState -> Result engineState A) : M A :=
  fun this =>
    match sortBuffer_ this with
    | None => Undefined
    | Some sb =>
        match method (sb, engineEnv this) with
        | Ok a (sb', env') =>
            Returns a (set_sortBuffer (Some sb') (storeEnv env' this)) [ev]
        | Raise e (sb', env') =>
            Throws e (set_sortBuffer (Some sb') (storeEnv env' this)) [ev]
        end
    end.

(** [sortBuffer_ = std::make_unique<SortBuffer>(...)]. *)
Definition makeSortBuffer (args : SortBufferArgs) : M unit :=
  fun this =>
    match SortBuffer_new args (engineEnv this) with
    | Ok sb env' =>
        Returns tt (set_sortBuffer (Some sb) (storeEnv env' this))
          [SortBufferCreated args]
    | Raise e env' => Throws e (storeEnv env' this) [SortBufferCreated args]
    end.

(** [sortBuffer_.reset()]: deletes the engine if there is one; never
    throws, and does nothing on a null pointer. *)
Definition resetSortBuffer : M unit :=
  fun this =>
    match sortBuffer_ this with
    | None => Returns tt this []
    | Some sb =>
        Returns tt
          (set_sortBuffer None
             (storeEnv (SortBuffer_delete (sb, engineEnv this)) this))
          [SortBufferDestroyed]
    end.

(** [pool()->release()]. *)
Definition poolRelease : M unit :=
  fun this =>
    Returns tt
      (set_base (set_pool_usage (release (pool_usage (pool_ (base this))))
                   (base this)) this)
      [PoolRelease].

(** *** Base-class members *)

(** Modelled from the spec: [Operator::canReclaim()] (Operator.h): the
    operator supports reclamation when it was constructed with spill
    eligibility, that is, when it holds a spill configuration. *)
Definition canReclaim (this : OrderBy) : bool :=
  match spillConfig_ (base this) with Some _ => true | None => false end.

(** Modelled from the spec: [Operator::noMoreInput()] (Operator.h) closes
    the input phase by setting [noMoreInput_]. *)
Definition Operator_noMoreInput : M unit :=
  assign (fun this => set_base (set_noMoreInput true (base this)) this).

(** Modelled from the spec: [Operator::recordSpillStats(stats)] hands the
    spill statistics to the telemetry sink; it does not fail. *)
Definition Operator_recordSpillStats (stats : SpillStats) : M unit :=
  emit (OperatorRecordSpillStats stats).

(** [Operator::abort()], the hook of the base class, on the base members. *)
Definition callOperatorAbort : M unit :=
  fun this =>
    match Operator_abort (base this) with
    | Ok _ b => Returns tt (set_base b this) [OperatorAbort]
    | Raise e b => Throws e (set_base b this) [OperatorAbort]
    end.

(** *** Construction (OrderBy.cpp:33-73) *)

(** Modelled from the spec: the [Operator] base constructor (Operator.cpp)
    stores the output type, the query configuration, the operator's pool
    and the optional spill configuration; a fresh operator is in the input
    phase and outside any non-reclaimable section. *)
Definition Operator_new (driverCtx : DriverCtx) (type : RowType)
    (spillConfig : option SpillConfig) : Operator :=
  {| outputType_ := type;
     queryConfig_ := queryConfig driverCtx;
     pool_ := operatorPool driverCtx;
     spillConfig_ := spillConfig;
     nonReclaimableSection_ := false;
     noMoreInput_ := false |}.

(** What the check of line 54 throws. *)
Definition constantKeyError : Exception :=
  VeloxRuntimeError "channel != kConstantChannel"
    "OrderBy doesn't allow constant sorting keys".

(** The loop of lines 51-60.  [keys] and [orders] are what is left of
    [sortingKeys()] and [sortingOrders()] from index [i] on; running out of
    [orders] first is [sortingOrders()[i]] past the end of the vector. *)
Fixpoint resolveSortingKeys (type : RowType)
    (keys : list TypedExpr) (orders : list SortOrder)
    (sortColumnIndices : list column_index_t)
    (sortCompareFlags : list CompareFlags)
    : M (list column_index_t * list CompareFlags) :=
  match keys with
  | [] => ret (sortColumnIndices, sortCompareFlags)
  | key :: keys' =>
      let channel := exprToChannel key type in
      VELOX_CHECK (negb (channel =? kConstantChannel)%N)
        "channel != kConstantChannel"
        "OrderBy doesn't allow constant sorting keys" ;;
      match orders with
      | [] => undefined
      | order :: orders' =>
          resolveSortingKeys type keys' orders'
            (sortColumnIndices ++ [channel])
            (sortCompareFlags ++ [fromSortOrderToCompareFlags order])
      end
  end.

(** The constructor body, run on the object the member initialisers left. *)
Definition OrderBy_body (node : OrderByNode) : M unit :=
  this <- self ;;
  VELOX_CHECK (pool_trackUsage (pool_ (base this))) "pool()->trackUsage()" "" ;;
  resolved <- resolveSortingKeys (outputType_ (base this))
                (sortingKeys node) (sortingOrders node) [] [] ;;
  makeSortBuffer
    {| sb_inputType := outputType_ (base this);
       sb_sortColumnIndices := fst resolved;
       sb_sortCompareFlags := snd resolved;
       sb_outputBatchRows := outputBatchRows (queryConfig_ (base this));
       sb_spillConfig := spillConfig_ (base this);
       sb_spillMemoryThreshold :=
         orderBySpillMemoryThreshold (queryConfig_ (base this)) |}.

(** The object before the constructor body runs: the base class built
    from the constructor's arguments (lines 37-45), and the members of
    OrderBy.h with their default initialisers: not finished, no spill run,
    a null engine pointer. *)
Definition OrderBy_members (operatorId : Z) (driverCtx : DriverCtx)
    (node : OrderByNode) : OrderBy :=
  {| base := Operator_new driverCtx (outputType node)
               (if canSpill node (queryConfig driverCtx)
                then makeSpillConfig driverCtx operatorId
                else None);
     finished_ := false;
     numSpillRuns_ := 0%N;
     sortBuffer_ := None |}.

(** [OrderBy::OrderBy(operatorId, driverCtx, orderByNode)].  When the
    outcome is [Throws], the object it carries is the partly built one the
    exception unwinds; no operator exists afterwards. *)
Definition OrderBy_new (operatorId : Z) (driverCtx : DriverCtx)
    (node : OrderByNode) : Outcome OrderBy unit :=
  OrderBy_body node (OrderBy_members operatorId driverCtx node).

(** *** addInput (OrderBy.cpp:75-77) *)
Definition addInput (input : RowVectorPtr) : M unit :=
  callSortBuffer (SortBufferAddInput input) (SortBuffer_addInput input).

(** *** reclaim (OrderBy.cpp:79-104) *)

Definition reclaimWarning (this : OrderBy) : string :=
  "Can't reclaim from order by operator which has started producing output: "
  ++ pool_name (pool_ (base this))
  ++ ", usage: "
  ++ succinctBytes (currentBytes (pool_usage (pool_ (base this))))
  ++ ", reservation: "
  ++ succinctBytes (reservedBytes (pool_usage (pool_ (base this)))).

Definition countNonReclaimableAttempt (stats : ReclaimerStats)
    : ReclaimerStats :=
  {| numNonReclaimableAttempts :=
       uint64_incr (numNonReclaimableAttempts stats) |}.

(** [stats] is the by-reference argument; its value on return is the
    result.  The local [driver] of line 84 is never used. *)
Definition reclaim (targetBytes : Z) (stats : ReclaimerStats)
    : M ReclaimerStats :=
  this <- self ;;
  VELOX_CHECK (canReclaim this) "canReclaim()" "" ;;
  VELOX_CHECK (negb (nonReclaimableSection_ (base this)))
    "!nonReclaimableSection_" "" ;;
  if noMoreInput_ (base this) then
    emit (LogWarning (reclaimWarning this)) ;;
    ret (countNonReclaimableAttempt stats)
  else
    callSortBuffer (SortBufferSpill 0 targetBytes)
      (SortBuffer_spill 0 targetBytes) ;;
    poolRelease ;;
    ret stats.

(** *** noMoreInput (OrderBy.cpp:106-111) and recordSpillStats (128-134) *)
Definition recordSpillStats : M unit :=
  this <- self ;;
  match sortBuffer_ this with
  | None => throw (VeloxRuntimeError "sortBuffer_ != nullptr" "")
  | Some sb =>
      emit SortBufferSpilledStats ;;
      match SortBuffer_spilledStats sb with
      | Some spillStats => Operator_recordSpillStats spillStats
      | None => ret tt
      end
  end.

Definition noMoreInput : M unit :=
  Operator_noMoreInput ;;
  callSortBuffer SortBufferNoMoreInput SortBuffer_noMoreInput ;;
  recordSpillStats.

(** *** getOutput (OrderBy.cpp:113-121) *)
Definition isNull {A} (p : option A) : bool :=
  match p with None => true | Some _ => false end.

Definition getOutput : M RowVectorPtr :=
  this <- self ;;
  if finished_ this || negb (noMoreInput_ (base this)) then ret None
  else
    output <- callSortBuffer SortBufferGetOutput SortBuffer_getOutput ;;
    assign (set_finished (isNull output)) ;;
    ret output.

(** *** abort (OrderBy.cpp:123-126) *)
Definition abort : M unit :=
  callOperatorAbort ;;
  resetSortBuffer.

(** *** Driving the operator *)

(** [n] consecutive [getOutput] calls; the batches they return, in order. *)
Fixpoint pull (n : nat) : M (list RowVectorPtr) :=
  match n with
  | O => ret []
  | S n' =>
      output <- getOutput ;;
      rest <- pull n' ;;
      ret (output :: rest)
  end.

(** The calls into the engine among the calls a method made. *)
Definition engineCalls (calls : list Event) : list Event :=
  filter isEngineCall calls.

(** The object [poolRelease] leaves. *)
Definition releasedPool (this : OrderBy) : OrderBy :=
  set_base (set_pool_usage (release (pool_usage (pool_ (base this))))
              (base this)) this.

(** An outcome whose calls are preceded by earlier calls. *)
Definition afterCalls {A} (earlier : list Event) (o : Outcome OrderBy A)
    : Outcome OrderBy A :=
  match o with
  | Returns a this calls => Returns a this (earlier ++ calls)
  | Throws e this calls => Throws e this (earlier ++ calls)
  | Undefined => Undefined
  end.

(** The entry points the driver and the memory arbitrator invoke. *)
Inductive Call :=
| CallAddInput (input : RowVectorPtr)
| CallNoMoreInput
| CallGetOutput
| CallReclaim (targetBytes : Z) (stats : ReclaimerStats)
| CallAbort.

Definition invoke (c : Call) : M unit :=
  match c with
  | CallAddInput input => addInput input
  | CallNoMoreInput => noMoreInput
  | CallGetOutput => getOutput ;; ret tt
  | CallReclaim targetBytes stats => reclaim targetBytes stats ;; ret tt
  | CallAbort => abort
  end.

(** The object an outcome leaves, if it leaves one. *)
Definition objectOf {A} (o : Outcome OrderBy A) : option OrderBy :=
  match o with
  | Returns _ this _ | Throws _ this _ => Some this
  | Undefined => None
  end.

(** The calls an outcome records. *)
Definition callsOf {A} (o : Outcome OrderBy A) : list Event :=
  match o with
  | Returns _ _ calls | Throws _ _ calls => calls
  | Undefined => []
  end.

(** The operators that exist and have not been aborted: built by the
    constructor, then driven through any entry points but [abort]. *)
Inductive Alive : OrderBy -> Prop :=
| Alive_new operatorId driverCtx node this calls :
    OrderBy_new operatorId driverCtx node = Returns tt this calls ->
    Alive this
| Alive_call c this this' :
    Alive this ->
    c <> CallAbort ->
    objectOf (invoke c this) = Some this' ->
    Alive this'.

(** A schedule of entry points, invoked one after the other on the same
    operator; an exception ends the schedule. *)
Fixpoint invokeAll (schedule : list Call) : M unit :=
  match schedule with
  | [] => ret tt
  | c :: schedule' => invoke c ;; invokeAll schedule'
  end.

(** The by-value arguments the constructor hands to the engine
    (OrderBy.cpp:61-72) for a plan node whose keys all resolve. *)
Definition engineArguments (operatorId : Z) (driverCtx : DriverCtx)
    (node : OrderByNode) : SortBufferArgs :=
  {| sb_inputType := outputType node;
     sb_sortColumnIndices :=
       map (fun key => exprToChannel key (outputType node)) (sortingKeys node);
     sb_sortCompareFlags :=
       map fromSortOrderToCompareFlags
         (firstn (length (sortingKeys node)) (sortingOrders node));
     sb_outputBatchRows := outputBatchRows (queryConfig driverCtx);
     sb_spillConfig :=
       if canSpill node (queryConfig driverCtx)
       then makeSpillConfig driverCtx operatorId else None;
     sb_spillMemoryThreshold :=
       orderBySpillMemoryThreshold (queryConfig driverCtx) |}.
End Methods.

(** ** A small instance of the collaborators

    A list-based sort buffer over rows with one nullable integer key and a
    payload, a pool that counts rows, and a base class whose [abort] hook
    does nothing.  It runs the operator on concrete inputs. *)
Module Demo.

Definition Row : Type := option Z * string.

Inductive Expr := FieldAccess (column : N) | Constant (value : Z).

Record Config := mkConfig { spillThreshold : N; batchRows : N }.

Record Usage := mkUsage { used : Z; reserved : Z }.

Record Buffer := mkBuffer {
  keyFlags : CompareFlags;
  outputRows : nat;
  resident : list Row;
  runs : list (list Row);
  sorted : list Row
}.

#[export] Instance collaborators : Collaborators := {|
  RowVector := list Row;
  RowType := nat;
  TypedExpr := Expr;
  QueryConfig := Config;
  SpillConfig := string;
  SpillStats := N;
  PoolUsage := Usage;
  SortBuffer := Buffer
|}.

(** Key order under the compare flags: nulls first or last, then the
    integers ascending or descending. *)
Definition keyLe (flags : CompareFlags) (a b : option Z) : bool :=
  match a, b with
  | None, _ => match b with None => true | Some _ => nullsFirst flags end
  | Some _, None => negb (nullsFirst flags)
  | Some x, Some y => if ascending flags then (x <=? y)%Z else (y <=? x)%Z
  end.

Fixpoint insertRow (flags : CompareFlags) (r : Row) (rows : list Row)
    : list Row :=
  match rows with
  | [] => [r]
  | r' :: rows' =>
      if keyLe flags (fst r) (fst r') then r :: rows
      else r' :: insertRow flags r rows'
  end.

Definition sortRows (flags : CompareFlags) (rows : list Row) : list Row :=
  fold_right (insertRow flags) [] rows.

Definition rowBytes (rows : list Row) : Z := Z.of_nat (length rows).

Definition withPool (u : Usage) (env : EngineEnv) : EngineEnv :=
  {| env_pool := u;
     env_nonReclaimableSection := env_nonReclaimableSection env;
     env_numSpillRuns := env_numSpillRuns env |}.

Definition grow (n : Z) (u : Usage) : Usage :=
  {| used := used u + n; reserved := Z.max (reserved u) (used u + n) |}.

Definition shrink (n : Z) (u : Usage) : Usage :=
  {| used := used u - n; reserved := reserved u |}.

Definition newBuffer (args : SortBufferArgs) (env : EngineEnv)
    : Result EngineEnv Buffer :=
  Ok {| keyFlags := hd (fromSortOrderToCompareFlags (mkSortOrder true true))
                      (sb_sortCompareFlags args);
        outputRows := Nat.max 1 (N.to_nat (sb_outputBatchRows args));
        resident := []; runs := []; sorted := [] |} env.

Definition bufferAddInput (input : RowVectorPtr) (st : engineState)
    : Result engineState unit :=
  let (sb, env) := st in
  match input with
  | None => Ok tt st
  | Some rows =>
      Ok tt
        ({| keyFlags := keyFlags sb; outputRows := outputRows sb;
            resident := resident sb ++ rows; runs := runs sb;
            sorted := sorted sb |},
         withPool (grow (rowBytes rows) (env_pool env)) env)
  end.

Definition bufferSpill (startRowIdx targetBytes : Z) (st : engineState)
    : Result engineState unit :=
  let (sb, env) := st in
  match resident sb with
  | [] => Ok tt st
  | _ :: _ =>
      Ok tt
        ({| keyFlags := keyFlags sb; outputRows := outputRows sb;
            resident := [];
            runs := runs sb ++ [sortRows (keyFlags sb) (resident sb)];
            sorted := sorted sb |},
         {| env_pool := shrink (rowBytes (resident sb)) (env_pool env);
            env_nonReclaimableSection := env_nonReclaimableSection env;
            env_numSpillRuns := (env_numSpillRuns env + 1)%N |})
  end.

Definition bufferNoMoreInput (st : engineState) : Result engineState unit :=
  let (sb, env) := st in
  Ok tt
    ({| keyFlags := keyFlags sb; outputRows := outputRows sb;
        resident := resident sb; runs := runs sb;
        sorted := sortRows (keyFlags sb) (resident sb ++ concat (runs sb)) |},
     env).

Definition bufferGetOutput (st : engineState)
    : Result engineState RowVectorPtr :=
  let (sb, env) := st in
  match sorted sb with
  | [] => Ok None st
  | _ :: _ =>
      Ok (Some (firstn (outputRows sb) (sorted sb)))
        ({| keyFlags := keyFlags sb; outputRows := outputRows sb;
            resident := resident sb; runs := runs sb;
            sorted := skipn (outputRows sb) (sorted sb) |},
         env)
  end.

Definition bufferSpilledStats (sb : Buffer) : option N :=
  match runs sb with
  | [] => None
  | _ :: _ => Some (N.of_nat (length (runs sb)))
  end.

Definition bufferDelete (st : engineState) : EngineEnv :=
  let (sb, env) := st in
  withPool (shrink (rowBytes (resident sb)) (env_pool env)) env.

#[export] Instance ops : CollaboratorOps := {|
  kConstantChannel := 4294967295%N;
  exprToChannel := fun e _ =>
    match e with FieldAccess c => c | Constant _ => 4294967295%N end;
  succinctBytes := fun z => if (z =? 0)%Z then "0B" else "some bytes";
  orderBySpillMemoryThreshold := spillThreshold;
  outputBatchRows := batchRows;
  currentBytes := used;
  reservedBytes := reserved;
  release := fun u => {| used := used u; reserved := used u |};
  Operator_abort := fun b => Ok tt b;
  SortBuffer_new := newBuffer;
  SortBuffer_addInput := bufferAddInput;
  SortBuffer_spill := bufferSpill;
  SortBuffer_noMoreInput := bufferNoMoreInput;
  SortBuffer_getOutput := bufferGetOutput;
  SortBuffer_spilledStats := bufferSpilledStats;
  SortBuffer_delete := bufferDelete
|}.

(** *** Concrete plans and operators *)

Definition pool (tracking : bool) : MemoryPool :=
  {| pool_name := "op.1.0.0.OrderBy"; pool_trackUsage := tracking;
     pool_usage := {| used := 0; reserved := 8 |} |}.

Definition ctx (tracking : bool) (spillDir : option string) : DriverCtx :=
  {| queryConfig := {| spillThreshold := 0; batchRows := 1024 |};
     makeSpillConfig := fun _ => spillDir;
     operatorPool := pool tracking |}.

Definition ascNullsFirst : SortOrder := mkSortOrder true true.

(** ORDER BY c0 ASC NULLS FIRST. *)
Definition plan : OrderByNode :=
  {| outputType := 2%nat; sortingKeys := [FieldAccess 0];
     sortingOrders := [ascNullsFirst]; canSpill := fun _ => true |}.

(** ORDER BY c0, <constant>. *)
Definition planConstantKey : OrderByNode :=
  {| outputType := 2%nat; sortingKeys := [FieldAccess 0; Constant 7];
     sortingOrders := [ascNullsFirst; ascNullsFirst];
     canSpill := fun _ => true |}.

(** The object a call leaves behind, when it returns. *)
Definition after {A} (o : Outcome OrderBy A) (otherwise : OrderBy) : OrderBy :=
  match o with Returns _ this _ => this | _ => otherwise end.

Definition noOperator : OrderBy :=
  {| base := Operator_new (ctx true None) 0%nat None; finished_ := false;
     numSpillRuns_ := 0; sortBuffer_ := None |}.

(** A spill-eligible operator, freshly constructed. *)
Definition fresh : OrderBy :=
  after (OrderBy_new 1 (ctx true (Some "/tmp/spill")) plan) noOperator.

(** The same without a spill configuration. *)
Definition freshNoSpill : OrderBy :=
  after (OrderBy_new 1 (ctx true None) plan) noOperator.

Definition batch1 : RowVectorPtr := Some [(Some 3%Z, "a"); (Some 1%Z, "b")].
Definition batch2 : RowVectorPtr := Some [(Some 2%Z, "c")].

(** After two batches of input. *)
Definition loaded : OrderBy :=
  after (addInput batch2 (after (addInput batch1 fresh) noOperator)) noOperator.

(** After the end of input, before any output. *)
Definition sealed : OrderBy := after (noMoreInput loaded) noOperator.

(** After the first output batch. *)
Definition producing : OrderBy := after (getOutput sealed) noOperator.

(** After the output has been pulled to the end. *)
Definition drained : OrderBy := after (getOutput producing) noOperator.

(** Aborted while still accepting input. *)
Definition aborted : OrderBy := after (abort loaded) noOperator.

(** An operator inside a non-reclaimable section. *)
Definition busy : OrderBy :=
  set_base (set_nonReclaimableSection true (base loaded)) loaded.

(** Aborted after the end of input. *)
Definition abortedSealed : OrderBy := after (abort sealed) noOperator.

Definition stats0 : ReclaimerStats := {| numNonReclaimableAttempts := 0 |}.

(** Statistics that already count 41 attempts, and statistics whose counter
    holds the largest [uint64_t]. *)
Definition stats41 : ReclaimerStats := {| numNonReclaimableAttempts := 41 |}.
Definition statsMax : ReclaimerStats :=
  {| numNonReclaimableAttempts := 18446744073709551615 |}.

(** What a refused [reclaim] logs while the three rows are resident. *)
Definition refusalWarning : string :=
  "Can't reclaim from order by operator which has started producing output: op.1.0.0.OrderBy, usage: some bytes, reservation: some bytes".

(** The whole life of an operator over [plan] with the given sort order:
    the batches in, the end of input, then [n] output calls. *)
Definition sortWith (order : SortOrder) (batches : list RowVectorPtr)
    (n : nat) : Outcome OrderBy (list RowVectorPtr) :=
  match OrderBy_new 1 (ctx true (Some "/tmp/spill"))
          {| outputType := 2%nat; sortingKeys := [FieldAccess 0];
             sortingOrders := [order]; canSpill := fun _ => true |} with
  | Returns _ this created =>
      afterCalls created
        ((fold_right (fun batch rest => addInput batch ;; rest)
            (noMoreInput ;; pull n) batches) this)
  | Throws e this calls => Throws e this calls
  | Undefined => Undefined
  end.

Definition batchesOf {A} (o : Outcome OrderBy (list A)) : list A :=
  match o with Returns batches _ _ => batches | _ => [] end.

(** ORDER BY c0, c1 with a single sort order. *)
Definition planMissingOrder : OrderByNode :=
  {| outputType := 2%nat; sortingKeys := [FieldAccess 0; FieldAccess 1];
     sortingOrders := [ascNullsFirst]; canSpill := fun _ => true |}.

(** After a spill in the input phase, and after the end of input that
    follows it. *)
Definition spilled : OrderBy := after (reclaim 100 stats0 loaded) noOperator.
Definition spilledSealed : OrderBy := after (noMoreInput spilled) noOperator.

(** A finished operator that is then fed again, asked to reclaim and
    aborted. *)
Definition roughSchedule : list Call :=
  [CallAddInput batch1; CallReclaim 100 stats0; CallAbort].
Definition weathered : OrderBy :=
  match objectOf (invokeAll roughSchedule drained) with
  | Some this => this
  | None => noOperator
  end.

(** *** An engine that fails

    The same collaborators with a sort buffer whose constructor runs out of
    memory when asked for batches of no rows, and whose other methods fail
    on spill I/O without changing anything. *)
Definition outOfMemory : Exception := CollaboratorError "OutOfMemory".
Definition spillIOError : Exception := CollaboratorError "SpillIOError".

Definition brokenOps : CollaboratorOps := {|
  kConstantChannel := 4294967295%N;
  exprToChannel := fun e _ =>
    match e with FieldAccess c => c | Constant _ => 4294967295%N end;
  succinctBytes := fun z => if (z =? 0)%Z then "0B" else "some bytes";
  orderBySpillMemoryThreshold := spillThreshold;
  outputBatchRows := batchRows;
  currentBytes := used;
  reservedBytes := reserved;
  release := fun u => {| used := used u; reserved := used u |};
  Operator_abort := fun b => Ok tt b;
  SortBuffer_new := fun args env =>
    if (sb_outputBatchRows args =? 0)%N
    then Raise outOfMemory env else newBuffer args env;
  SortBuffer_addInput := fun _ st => Raise spillIOError st;
  SortBuffer_spill := fun _ _ st => Raise spillIOError st;
  SortBuffer_noMoreInput := fun st => Raise spillIOError st;
  SortBuffer_getOutput := fun st => Raise spillIOError st;
  SortBuffer_spilledStats := bufferSpilledStats;
  SortBuffer_delete := bufferDelete
|}.

(** A driver context asking for batches of no rows. *)
Definition ctxNoRows : DriverCtx :=
  {| queryConfig := {| spillThreshold := 0; batchRows := 0 |};
     makeSpillConfig := fun _ => Some "/tmp/spill";
     operatorPool := pool true |}.

(** An operator over the failing engine, and the same after a failed end of
    input. *)
Definition brokenFresh : OrderBy :=
  after (@OrderBy_new collaborators brokenOps 1
           (ctx true (Some "/tmp/spill")) plan) noOperator.
Definition brokenSealed : OrderBy :=
  match @noMoreInput collaborators brokenOps brokenFresh with
  | Throws _ this _ => this
  | _ => noOperator
  end.
End Demo.

(** * Properties *)

Unset Implicit Arguments.

Section Properties.
Context {C : Collaborators} {Ops : CollaboratorOps}.

(** Unfolds the sequencing of a method body. *)
Ltac steps :=
  cbn [bind ret Monad_M]; unfold M_bind, M_ret, self, assign, emit, throw,
    VELOX_CHECK; cbn [bind ret Monad_M]; unfold M_bind, M_ret, throw.

(** Case analysis on whatever a method body branches on. *)
Ltac branches :=
  repeat match goal with
         | |- context [match ?x with _ => _ end] =>
             lazymatch x with
             | context [match _ with _ => _ end] => fail
             | _ => destruct x eqn:?; cbn
             end
         end.

Ltac method :=
  unfold invoke, addInput, noMoreInput, getOutput, reclaim, abort,
    recordSpillStats, Operator_noMoreInput, Operator_recordSpillStats,
    callSortBuffer, callOperatorAbort, resetSortBuffer, poolRelease;
  steps; cbn.

Lemma uint64_incr_below (n : N) :
  (n < 2 ^ 64 - 1)%N -> uint64_incr n = (n + 1)%N.
Proof.
  intros Hn. unfold uint64_incr. apply N.mod_small. lia.
Qed.

(** ** The comparison flags *)

(** C6: the compare flags derived from a sort order carry its nulls-first
    and ascending flags, are never equality-only, and always use the
    [NoStop] null handling; they are the record built from the two flags of
    the sort order and nothing else. *)
Theorem fromSortOrderToCompareFlags_spec (sortOrder : SortOrder) :
  nullsFirst (fromSortOrderToCompareFlags sortOrder) = isNullsFirst sortOrder
  /\ ascending (fromSortOrderToCompareFlags sortOrder) = isAscending sortOrder
  /\ equalsOnly (fromSortOrderToCompareFlags sortOrder) = false
  /\ nullHandlingMode (fromSortOrderToCompareFlags sortOrder) = NoStop
  /\ fromSortOrderToCompareFlags sortOrder
     = mkCompareFlags (isNullsFirst sortOrder) (isAscending sortOrder)
         false NoStop.
Proof.
  destruct sortOrder as [asc nf]. cbn. repeat split.
Qed.

(** ** getOutput *)

Lemma getOutput_short_circuit (this : OrderBy) :
  finished_ this || negb (noMoreInput_ (base this)) = true ->
  getOutput this = Returns None this [].
Proof.
  intros Hguard. unfold getOutput. steps. rewrite Hguard. reflexivity.
Qed.

(** When the engine is asked, the operator records whether it answered
    with the end of stream. *)
Lemma getOutput_sets_finished (this this' : OrderBy) output calls :
  finished_ this = false ->
  noMoreInput_ (base this) = true ->
  getOutput this = Returns output this' calls ->
  finished_ this' = isNull output /\ calls = [SortBufferGetOutput].
Proof.
  intros Hfin Hclosed. unfold getOutput. steps. rewrite Hfin, Hclosed.
  cbn [orb negb]. unfold callSortBuffer.
  destruct (sortBuffer_ this) as [sb|]; [|discriminate].
  destruct (SortBuffer_getOutput (sb, engineEnv this))
    as [out [sb' env']|e [sb' env']]; [|discriminate].
  intros Heq. injection Heq as <- <- <-. split; reflexivity.
Qed.

(** C4: before [noMoreInput] has been called, [getOutput] returns the null
    batch, leaves the operator as it was and makes no call at all, so none
    to the engine. *)
Theorem getOutput_before_noMoreInput (this : OrderBy) :
  noMoreInput_ (base this) = false ->
  getOutput this = Returns None this [].
Proof.
  intros Hopen. apply getOutput_short_circuit.
  rewrite Hopen. apply orb_true_r.
Qed.

Lemma getOutput_after_finished (this : OrderBy) (n : nat) :
  finished_ this = true ->
  getOutput this = Returns None this []
  /\ pull n this = Returns (repeat None n) this [].
Proof.
  intros Hfin.
  assert (Hone : getOutput this = Returns None this []).
  { apply getOutput_short_circuit. rewrite Hfin. reflexivity. }
  split; [exact Hone|].
  induction n as [|n IH]; [reflexivity|].
  cbn [pull repeat]. steps. rewrite Hone. rewrite IH. reflexivity.
Qed.

(** C3: once a [getOutput] call made after the end of input has come back
    with the null batch, the operator is finished, and every later
    [getOutput] returns the null batch again, leaves the operator unchanged
    and makes no call (so none to the engine), however often it is
    repeated. *)
Theorem getOutput_end_of_stream_idempotent
    (before this : OrderBy) (calls : list Event) (n : nat) :
  noMoreInput_ (base before) = true ->
  getOutput before = Returns None this calls ->
  finished_ this = true
  /\ getOutput this = Returns None this []
  /\ pull n this = Returns (repeat None n) this [].
Proof.
  intros Hclosed Hnull.
  assert (Hfin : finished_ this = true).
  { destruct (finished_ before) eqn:Hbefore.
    - rewrite getOutput_short_circuit in Hnull by (rewrite Hbefore; reflexivity).
      injection Hnull as <- _. exact Hbefore.
    - exact (proj1 (getOutput_sets_finished _ _ _ _ Hbefore Hclosed Hnull)). }
  split; [exact Hfin|]. apply getOutput_after_finished. exact Hfin.
Qed.

(** ** reclaim *)

(** The refusal path: with the preconditions met and [noMoreInput_] set,
    [reclaim] only logs and counts. *)
Lemma reclaim_refused (this : OrderBy) targetBytes stats :
  canReclaim this = true ->
  nonReclaimableSection_ (base this) = false ->
  noMoreInput_ (base this) = true ->
  reclaim targetBytes stats this
  = Returns (countNonReclaimableAttempt stats) this
      [LogWarning (reclaimWarning this)].
Proof.
  intros Hcan Hsection Hclosed. unfold reclaim. steps.
  rewrite Hcan, Hsection. cbn [negb]. rewrite Hclosed. reflexivity.
Qed.

(** The spill path: with the preconditions met, [noMoreInput_] clear and
    the engine in place, [reclaim] is the engine's [spill(0, targetBytes)]
    followed, if that returns, by the pool's [release()]. *)
Lemma reclaim_honored (this : OrderBy) sb targetBytes stats :
  canReclaim this = true ->
  nonReclaimableSection_ (base this) = false ->
  noMoreInput_ (base this) = false ->
  sortBuffer_ this = Some sb ->
  reclaim targetBytes stats this
  = match SortBuffer_spill 0 targetBytes (sb, engineEnv this) with
    | Ok _ (sb', env') =>
        Returns stats
          (releasedPool (set_sortBuffer (Some sb') (storeEnv env' this)))
          [SortBufferSpill 0 targetBytes; PoolRelease]
    | Raise e (sb', env') =>
        Throws e (set_sortBuffer (Some sb') (storeEnv env' this))
          [SortBufferSpill 0 targetBytes]
    end.
Proof.
  intros Hcan Hsection Hopen Hengine. unfold reclaim. steps.
  rewrite Hcan, Hsection. cbn [negb]. rewrite Hopen.
  unfold callSortBuffer. rewrite Hengine.
  destruct (SortBuffer_spill 0 targetBytes (sb, engineEnv this))
    as [[] [sb' env']|e [sb' env']]; reflexivity.
Qed.

(** Without an engine the spill path dereferences a null pointer. *)
Lemma reclaim_without_engine (this : OrderBy) targetBytes stats :
  canReclaim this = true ->
  nonReclaimableSection_ (base this) = false ->
  noMoreInput_ (base this) = false ->
  sortBuffer_ this = None ->
  reclaim targetBytes stats this = Undefined.
Proof.
  intros Hcan Hsection Hopen Hengine. unfold reclaim. steps.
  rewrite Hcan, Hsection. cbn [negb]. rewrite Hopen.
  unfold callSortBuffer. rewrite Hengine. reflexivity.
Qed.

(** C1: with its preconditions met and the engine in place, [reclaim]
    spills exactly when [noMoreInput_] is still clear.  Then it calls the
    engine's [spill(0, targetBytes)] and, when that returns, the pool's
    [release()], in this order.  Otherwise it returns with the operator
    (engine and pool included) unchanged, having logged one warning and
    added one to the count of non-reclaimable attempts (modulo 2^64, the
    counter being a [uint64_t]), and the [getOutput] calls that follow
    behave as they would have without the [reclaim]. *)
Theorem reclaim_policy (this : OrderBy) sb targetBytes stats :
  canReclaim this = true ->
  nonReclaimableSection_ (base this) = false ->
  sortBuffer_ this = Some sb ->
  if noMoreInput_ (base this) then
    reclaim targetBytes stats this
    = Returns
        {| numNonReclaimableAttempts :=
             ((numNonReclaimableAttempts stats + 1) mod 2 ^ 64)%N |}
        this [LogWarning (reclaimWarning this)]
    /\ forall n,
         (reclaim targetBytes stats ;; pull n) this
         = afterCalls [LogWarning (reclaimWarning this)] (pull n this)
  else
    match SortBuffer_spill 0 targetBytes (sb, engineEnv this) with
    | Ok _ (sb', env') =>
        reclaim targetBytes stats this
        = Returns stats
            (releasedPool (set_sortBuffer (Some sb') (storeEnv env' this)))
            [SortBufferSpill 0 targetBytes; PoolRelease]
        /\ pool_usage (pool_ (base (releasedPool
              (set_sortBuffer (Some sb') (storeEnv env' this)))))
           = release (env_pool env')
    | Raise e (sb', env') =>
        reclaim targetBytes stats this
        = Throws e (set_sortBuffer (Some sb') (storeEnv env' this))
            [SortBufferSpill 0 targetBytes]
    end.
Proof.
  intros Hcan Hsection Hengine.
  destruct (noMoreInput_ (base this)) eqn:Hphase.
  - pose proof (reclaim_refused this targetBytes stats Hcan Hsection Hphase) as Href.
    split; [exact Href|]. intros n. steps. rewrite Href.
    destruct (pull n this); reflexivity.
  - rewrite (reclaim_honored this sb targetBytes stats Hcan Hsection Hphase Hengine).
    destruct (SortBuffer_spill 0 targetBytes (sb, engineEnv this))
      as [[] [sb' env']|e [sb' env']]; [split|]; reflexivity.
Qed.

(** C2: when the operator does not support reclamation, or is inside a
    non-reclaimable section, [reclaim] does not return: the failed
    [VELOX_CHECK] throws, before any call is made and with the operator
    untouched. *)
Theorem reclaim_preconditions_fatal (this : OrderBy) targetBytes stats :
  canReclaim this = false \/ nonReclaimableSection_ (base this) = true ->
  reclaim targetBytes stats this
  = Throws
      (VeloxRuntimeError
         (if canReclaim this then "!nonReclaimableSection_"
          else "canReclaim()") "")
      this [].
Proof.
  intros Hviolated. unfold reclaim. steps.
  destruct (canReclaim this); [|reflexivity].
  destruct Hviolated as [Hcan|Hsection]; [discriminate|].
  rewrite Hsection. reflexivity.
Qed.

(** C9: right after [noMoreInput()] has returned, before any [getOutput]
    call, the flag [noMoreInput_] is set and [reclaim] already refuses: it
    returns with the operator unchanged, makes no call to the engine, logs
    the warning and adds one to the count of non-reclaimable attempts
    (modulo 2^64). *)
Theorem reclaim_refused_once_input_closed
    (before this : OrderBy) calls targetBytes stats :
  noMoreInput before = Returns tt this calls ->
  canReclaim this = true ->
  nonReclaimableSection_ (base this) = false ->
  noMoreInput_ (base this) = true
  /\ finished_ this = finished_ before
  /\ ~ In SortBufferGetOutput calls
  /\ reclaim targetBytes stats this
     = Returns
         {| numNonReclaimableAttempts :=
              ((numNonReclaimableAttempts stats + 1) mod 2 ^ 64)%N |}
         this [LogWarning (reclaimWarning this)].
Proof.
  intros Hdone Hcan Hsection.
  assert (Hstate : noMoreInput_ (base this) = true
                   /\ finished_ this = finished_ before
                   /\ ~ In SortBufferGetOutput calls).
  { revert Hdone. method. branches; intros Heq; try discriminate;
      injection Heq as <- <-; cbn; repeat split;
      intros Hin; cbn in Hin; intuition discriminate. }
  destruct Hstate as (Hclosed & Hfin & Hcalls).
  repeat split; try assumption.
  apply reclaim_refused; assumption.
Qed.

(** ** Construction *)

(** The loop neither modifies the object nor calls a collaborator, and
    what it returns is the keys' channels and the orders' flags, none of
    the channels being the constant one. *)
Lemma resolveSortingKeys_returns (type : RowType) :
  forall keys orders columns flags (this : OrderBy),
    match resolveSortingKeys type keys orders columns flags this with
    | Returns resolved this' calls =>
        this' = this /\ calls = []
        /\ fst resolved
           = (columns ++ map (fun key => exprToChannel key type) keys)%list
        /\ snd resolved
           = (flags ++ map fromSortOrderToCompareFlags
                        (firstn (length keys) orders))%list
        /\ Forall (fun key => exprToChannel key type <> kConstantChannel)
             keys
    | Throws e this' calls =>
        this' = this /\ calls = [] /\ e = constantKeyError
    | Undefined => True
    end.
Proof.
  induction keys as [|key keys IH]; intros orders columns flags this.
  - cbn. rewrite !app_nil_r. repeat split. constructor.
  - cbn [resolveSortingKeys]. steps.
    destruct (N.eqb_spec (exprToChannel key type) kConstantChannel)
      as [Hconst|Hreal]; cbn [negb].
    + repeat split.
    + destruct orders as [|order orders]; [exact I|].
      specialize (IH orders (columns ++ [exprToChannel key type])%list
                    (flags ++ [fromSortOrderToCompareFlags order])%list this).
      destruct (resolveSortingKeys type keys orders _ _ this)
        as [resolved this' calls|e this' calls|].
      * destruct IH as (-> & -> & Hcolumns & Hflags & Hall).
        rewrite Hcolumns, Hflags. cbn. rewrite <- !app_assoc.
        repeat split. constructor; assumption.
      * destruct IH as (-> & -> & ->). repeat split.
      * exact I.
Qed.

(** With an order for every key, a key on the constant channel makes the
    loop throw. *)
Lemma resolveSortingKeys_constant (type : RowType) (key : TypedExpr) :
  exprToChannel key type = kConstantChannel ->
  forall keys orders columns flags (this : OrderBy),
    (length keys <= length orders)%nat ->
    In key keys ->
    resolveSortingKeys type keys orders columns flags this
    = Throws constantKeyError this [].
Proof.
  intros Hconst. induction keys as [|key' keys IH];
    intros orders columns flags this Hlen Hin; [contradiction|].
  cbn [resolveSortingKeys]. steps.
  destruct (N.eqb_spec (exprToChannel key' type) kConstantChannel)
    as [Hconst'|Hreal]; cbn [negb]; [reflexivity|].
  destruct Hin as [->|Hin]; [contradiction|].
  destruct orders as [|order orders]; cbn in Hlen; [lia|].
  rewrite IH by (assumption || lia). reflexivity.
Qed.

(** C5: when the plan node has an order for every key and one of its
    sorting keys resolves to the constant channel, the constructor throws
    out of a failed [VELOX_CHECK]: the check of the key, with the message
    that constant sorting keys are not allowed, unless the pool check on
    the line before has already failed.  No call has been made by then, in
    particular no [SortBuffer] has been created, and the engine pointer of
    the abandoned object is null. *)
Theorem constant_sorting_key_rejected
    (operatorId : Z) (driverCtx : DriverCtx) (node : OrderByNode)
    (key : TypedExpr) :
  (length (sortingKeys node) <= length (sortingOrders node))%nat ->
  In key (sortingKeys node) ->
  exprToChannel key (outputType node) = kConstantChannel ->
  OrderBy_new operatorId driverCtx node
  = Throws
      (if pool_trackUsage (operatorPool driverCtx)
       then VeloxRuntimeError "channel != kConstantChannel"
              "OrderBy doesn't allow constant sorting keys"
       else VeloxRuntimeError "pool()->trackUsage()" "")
      (OrderBy_members operatorId driverCtx node) []
  /\ sortBuffer_ (OrderBy_members operatorId driverCtx node) = None.
Proof.
  intros Hlen Hin Hconst. split; [|reflexivity].
  unfold OrderBy_new, OrderBy_body. steps. cbn.
  destruct (pool_trackUsage (operatorPool driverCtx)); [|reflexivity].
  rewrite (resolveSortingKeys_constant (outputType node) key Hconst)
    by assumption.
  reflexivity.
Qed.

(** What a successful construction leaves: an operator in the input phase
    whose engine was created, as the only call, from the keys' channels and
    the flags derived from the sort orders. *)
Lemma OrderBy_new_returns
    (operatorId : Z) (driverCtx : DriverCtx) (node : OrderByNode)
    (this : OrderBy) (calls : list Event) :
  OrderBy_new operatorId driverCtx node = Returns tt this calls ->
  pool_trackUsage (operatorPool driverCtx) = true
  /\ pool_trackUsage (pool_ (base this)) = true
  /\ pool_name (pool_ (base this)) = pool_name (operatorPool driverCtx)
  /\ (exists sb, sortBuffer_ this = Some sb)
  /\ finished_ this = false
  /\ noMoreInput_ (base this) = false
  /\ exists args,
       calls = [SortBufferCreated args]
       /\ sb_sortColumnIndices args
          = map (fun key => exprToChannel key (outputType node))
              (sortingKeys node)
       /\ sb_sortCompareFlags args
          = map fromSortOrderToCompareFlags
              (firstn (length (sortingKeys node)) (sortingOrders node))
       /\ ~ In kConstantChannel (sb_sortColumnIndices args).
Proof.
  unfold OrderBy_new, OrderBy_body. steps. cbn.
  destruct (pool_trackUsage (operatorPool driverCtx)) eqn:Htrack;
    [|discriminate].
  pose proof (resolveSortingKeys_returns (outputType node)
                (sortingKeys node) (sortingOrders node) [] []
                (OrderBy_members operatorId driverCtx node)) as Hloop.
  unfold OrderBy_members in Hloop at 1. cbn in Hloop.
  destruct (resolveSortingKeys _ _ _ _ _ _)
    as [resolved this0 calls0|e this0 calls0|]; [|discriminate..].
  destruct Hloop as (-> & -> & Hcolumns & Hflags & Hall).
  unfold makeSortBuffer.
  destruct (SortBuffer_new _ _) as [sb env'|e env'] eqn:Hnew; [|discriminate].
  intros Heq. injection Heq as <- <-. cbn.
  rewrite Htrack. repeat split; eauto.
  eexists. split; [reflexivity|]. cbn. rewrite Hcolumns, Hflags.
  repeat split. rewrite in_map_iff. intros (key & Hkey & Hin).
  rewrite Forall_forall in Hall. exact (Hall key Hin Hkey).
Qed.

(** C10: with a pool that does not track usage, the constructor fails on
    its first line, out of the failed [VELOX_CHECK], before any call and
    with the engine pointer null; and whenever the constructor returns, the
    pool the operator holds tracks usage. *)
Theorem untracked_pool_rejected
    (operatorId : Z) (driverCtx : DriverCtx) (node : OrderByNode) :
  (pool_trackUsage (operatorPool driverCtx) = false ->
   OrderBy_new operatorId driverCtx node
   = Throws (VeloxRuntimeError "pool()->trackUsage()" "")
       (OrderBy_members operatorId driverCtx node) []
   /\ sortBuffer_ (OrderBy_members operatorId driverCtx node) = None)
  /\ (forall this calls,
        OrderBy_new operatorId driverCtx node = Returns tt this calls ->
        pool_trackUsage (pool_ (base this)) = true).
Proof.
  split.
  - intros Htrack. split; [|reflexivity].
    unfold OrderBy_new, OrderBy_body. steps. cbn. rewrite Htrack. reflexivity.
  - intros this calls Hbuilt.
    exact (proj1 (proj2 (OrderBy_new_returns _ _ _ _ _ Hbuilt))).
Qed.

(** ** abort *)

(** C7: in whatever state the operator is (before any input, while
    loading, while producing, after the end of stream, with or without an
    engine), once the base-class hook has returned, [abort] returns
    normally with the engine pointer null: the engine, if there was one,
    has been deleted, which hands back what it held; the only calls are the
    hook and that deletion, and resetting again does nothing. *)
Theorem abort_releases_engine (this : OrderBy) (b : Operator) :
  Operator_abort (base this) = Ok tt b ->
  exists this',
    abort this
    = Returns tt this'
        (OperatorAbort
         :: if isNull (sortBuffer_ this) then [] else [SortBufferDestroyed])
    /\ sortBuffer_ this' = None
    /\ finished_ this' = finished_ this
    /\ engineEnv this'
       = match sortBuffer_ this with
         | Some sb => SortBuffer_delete (sb, engineEnv (set_base b this))
         | None => engineEnv (set_base b this)
         end
    /\ resetSortBuffer this' = Returns tt this' [].
Proof.
  intros Hhook. unfold abort. steps.
  unfold callOperatorAbort, resetSortBuffer. rewrite Hhook. cbn.
  destruct (sortBuffer_ this) as [sb|] eqn:Hengine; cbn.
  - eexists. split; [reflexivity|]. cbn. repeat split.
    destruct (SortBuffer_delete (sb, engineEnv (set_base b this))); reflexivity.
  - eexists. split; [reflexivity|]. cbn. rewrite Hengine. repeat split.
Qed.

(** What [abort] leaves, when it returns: no engine. *)
Lemma abort_leaves_no_engine (before this : OrderBy) calls :
  abort before = Returns tt this calls -> sortBuffer_ this = None.
Proof.
  unfold abort. steps. unfold callOperatorAbort, resetSortBuffer.
  destruct (Operator_abort (base before)) as [[] b|e b]; [|discriminate].
  cbn. destruct (sortBuffer_ before) as [sb|] eqn:Hengine; cbn;
    intros Heq; injection Heq as <- _; [reflexivity|exact Hengine].
Qed.

(** C8, as the code has it: after [abort] has torn the engine down, a
    [reclaim] whose preconditions hold and that finds [noMoreInput_] set
    returns normally without touching the engine: it logs the warning and
    adds one to the count of non-reclaimable attempts (modulo 2^64), and
    the operator is unchanged. *)
Theorem reclaim_after_abort_input_closed
    (before this : OrderBy) calls targetBytes stats :
  abort before = Returns tt this calls ->
  canReclaim this = true ->
  nonReclaimableSection_ (base this) = false ->
  noMoreInput_ (base this) = true ->
  sortBuffer_ this = None
  /\ reclaim targetBytes stats this
     = Returns
         {| numNonReclaimableAttempts :=
              ((numNonReclaimableAttempts stats + 1) mod 2 ^ 64)%N |}
         this [LogWarning (reclaimWarning this)].
Proof.
  intros Haborted Hcan Hsection Hclosed. split.
  - exact (abort_leaves_no_engine before this calls Haborted).
  - apply reclaim_refused; assumption.
Qed.

(** While [noMoreInput_] is clear, the same call dereferences the null
    engine pointer. *)
Lemma reclaim_after_abort_input_open
    (before this : OrderBy) calls targetBytes stats :
  abort before = Returns tt this calls ->
  canReclaim this = true ->
  nonReclaimableSection_ (base this) = false ->
  noMoreInput_ (base this) = false ->
  reclaim targetBytes stats this = Undefined.
Proof.
  intros Haborted Hcan Hsection Hopen.
  apply reclaim_without_engine; try assumption.
  exact (abort_leaves_no_engine before this calls Haborted).
Qed.
(** ** Lifecycle invariants *)

(** No entry point clears [finished_]. *)
Lemma finished_stable (c : Call) (this this' : OrderBy) :
  finished_ this = true ->
  objectOf (invoke c this) = Some this' ->
  finished_ this' = true.
Proof.
  intros Hfin. destruct c; method; rewrite ?Hfin; cbn; branches; cbn;
    intros Heq; try discriminate; injection Heq as <-; cbn;
    first [exact Hfin | reflexivity].
Qed.

(** Only [abort] takes the engine away. *)
Lemma engine_stays (c : Call) (this this' : OrderBy) :
  c <> CallAbort ->
  sortBuffer_ this <> None ->
  objectOf (invoke c this) = Some this' ->
  sortBuffer_ this' <> None.
Proof.
  intros Hcall Hengine. destruct c; [| | | |contradiction]; method;
    branches; cbn; intros Heq; try discriminate; injection Heq as <-; cbn;
    first [exact Hengine | discriminate | congruence].
Qed.

(** The pool an operator holds keeps its name and its tracking switch
    through every entry point but [abort], whose base-class hook is not
    part of this file. *)
Lemma pool_identity_stable (c : Call) (this this' : OrderBy) :
  c <> CallAbort ->
  objectOf (invoke c this) = Some this' ->
  pool_trackUsage (pool_ (base this')) = pool_trackUsage (pool_ (base this))
  /\ pool_name (pool_ (base this')) = pool_name (pool_ (base this)).
Proof.
  intros Hcall. destruct c; [| | | |contradiction]; method;
    branches; cbn; intros Heq; try discriminate; injection Heq as <-; cbn;
    split; reflexivity.
Qed.

(** A method that records no call into the engine has left the engine as it
    was. *)
Lemma engine_untouched_without_calls (c : Call) (this this' : OrderBy) :
  objectOf (invoke c this) = Some this' ->
  engineCalls (callsOf (invoke c this)) = [] ->
  sortBuffer_ this' = sortBuffer_ this.
Proof.
  destruct c; method; branches; cbn; intros Heq; try discriminate;
    injection Heq as <-; cbn; intros Hcalls; try discriminate;
    first [reflexivity | congruence].
Qed.

(** An operator that has not been aborted has its engine and a pool that
    tracks usage. *)
Lemma Alive_invariant (this : OrderBy) :
  Alive this ->
  sortBuffer_ this <> None /\ pool_trackUsage (pool_ (base this)) = true.
Proof.
  induction 1 as [operatorId driverCtx node this calls Hnew
                 |c this this' Halive [IHengine IHpool] Hcall Hstep].
  - destruct (OrderBy_new_returns _ _ _ _ _ Hnew)
      as (_ & Htrack & _ & [sb Hengine] & _).
    split; [congruence | exact Htrack].
  - split.
    + exact (engine_stays c this this' Hcall IHengine Hstep).
    + rewrite (proj1 (pool_identity_stable c this this' Hcall Hstep)).
      exact IHpool.
Qed.
(** ** More on construction *)

(** With an order for every key and no constant key, the loop returns the
    channels and the flags, in key order. *)
Lemma resolveSortingKeys_resolved (type : RowType) :
  forall keys orders columns flags (this : OrderBy),
    Forall (fun key => exprToChannel key type <> kConstantChannel) keys ->
    (length keys <= length orders)%nat ->
    resolveSortingKeys type keys orders columns flags this
    = Returns
        ((columns ++ map (fun key => exprToChannel key type) keys)%list,
         (flags ++ map fromSortOrderToCompareFlags
                     (firstn (length keys) orders))%list)
        this [].
Proof.
  induction keys as [|key keys IH]; intros orders columns flags this Hreal Hlen.
  - cbn. rewrite !app_nil_r. reflexivity.
  - inversion Hreal as [|? ? Hkey Hkeys]; subst.
    cbn [resolveSortingKeys]. steps.
    destruct (N.eqb_spec (exprToChannel key type) kConstantChannel)
      as [Hconst|_]; [contradiction|]. cbn [negb].
    destruct orders as [|order orders]; cbn in Hlen; [lia|].
    rewrite IH by (assumption || lia). cbn. rewrite <- !app_assoc.
    reflexivity.
Qed.

(** With no constant key, running out of sort orders is an access past the
    end of [sortingOrders()]. *)
Lemma resolveSortingKeys_past_the_end (type : RowType) :
  forall keys orders columns flags (this : OrderBy),
    Forall (fun key => exprToChannel key type <> kConstantChannel) keys ->
    (length orders < length keys)%nat ->
    resolveSortingKeys type keys orders columns flags this = Undefined.
Proof.
  induction keys as [|key keys IH]; intros orders columns flags this Hreal Hlen;
    [cbn in Hlen; lia|].
  inversion Hreal as [|? ? Hkey Hkeys]; subst.
  cbn [resolveSortingKeys]. steps.
  destruct (N.eqb_spec (exprToChannel key type) kConstantChannel)
    as [Hconst|_]; [contradiction|]. cbn [negb].
  destruct orders as [|order orders]; [reflexivity|].
  cbn in Hlen. rewrite IH by (assumption || lia). reflexivity.
Qed.

(** X1: when the constructor returns, its only call created the engine, from
    the output type, the channel of every key in key order, the compare
    flags of the first orders (one per key), the batch size and spill
    threshold of the query configuration, and the spill configuration the
    operator itself holds: the one of the driver context when the plan node
    can spill, none otherwise.  The operator starts in the input phase, not
    finished, with the engine in place. *)
Theorem constructor_engine_arguments
    (operatorId : Z) (driverCtx : DriverCtx) (node : OrderByNode)
    (this : OrderBy) (calls : list Event) :
  OrderBy_new operatorId driverCtx node = Returns tt this calls ->
  calls = [SortBufferCreated (engineArguments operatorId driverCtx node)]
  /\ spillConfig_ (base this)
     = sb_spillConfig (engineArguments operatorId driverCtx node)
  /\ ~ In kConstantChannel
         (sb_sortColumnIndices (engineArguments operatorId driverCtx node))
  /\ finished_ this = false
  /\ noMoreInput_ (base this) = false
  /\ sortBuffer_ this <> None.
Proof.
  unfold OrderBy_new, OrderBy_body. steps. cbn.
  destruct (pool_trackUsage (operatorPool driverCtx)); [|discriminate].
  pose proof (resolveSortingKeys_returns (outputType node)
                (sortingKeys node) (sortingOrders node) [] []
                (OrderBy_members operatorId driverCtx node)) as Hloop.
  unfold OrderBy_members in Hloop at 1. cbn in Hloop.
  destruct (resolveSortingKeys _ _ _ _ _ _)
    as [[columns flags] this0 calls0|e this0 calls0|]; [|discriminate..].
  cbn in Hloop. destruct Hloop as (-> & -> & -> & -> & Hall).
  unfold makeSortBuffer.
  destruct (SortBuffer_new _ _) as [sb env'|e env']; [|discriminate].
  intros Heq. injection Heq as <- <-. cbn.
  repeat split; try discriminate.
  rewrite in_map_iff. intros (key & Hkey & Hin).
  rewrite Forall_forall in Hall. exact (Hall key Hin Hkey).
Qed.

(** X2: the constructor never compares the number of sort orders with the
    number of keys: with a tracking pool and no constant key, a plan node
    with fewer orders than keys makes line 59 read [sortingOrders()[i]] past
    the end of the vector. *)
Theorem constructor_missing_sort_order
    (operatorId : Z) (driverCtx : DriverCtx) (node : OrderByNode) :
  pool_trackUsage (operatorPool driverCtx) = true ->
  Forall (fun key => exprToChannel key (outputType node) <> kConstantChannel)
    (sortingKeys node) ->
  (length (sortingOrders node) < length (sortingKeys node))%nat ->
  OrderBy_new operatorId driverCtx node = Undefined.
Proof.
  intros Htrack Hreal Hshort. unfold OrderBy_new, OrderBy_body. steps. cbn.
  rewrite Htrack.
  rewrite (resolveSortingKeys_past_the_end (outputType node)) by assumption.
  reflexivity.
Qed.

(** X3: when every check passes and the engine's constructor throws, the
    operator's constructor throws the same exception; the engine pointer of
    the abandoned object is still null. *)
Theorem constructor_engine_failure
    (operatorId : Z) (driverCtx : DriverCtx) (node : OrderByNode)
    (e : Exception) (env' : EngineEnv) :
  pool_trackUsage (operatorPool driverCtx) = true ->
  Forall (fun key => exprToChannel key (outputType node) <> kConstantChannel)
    (sortingKeys node) ->
  (length (sortingKeys node) <= length (sortingOrders node))%nat ->
  SortBuffer_new (engineArguments operatorId driverCtx node)
    (engineEnv (OrderBy_members operatorId driverCtx node))
  = Raise e env' ->
  OrderBy_new operatorId driverCtx node
  = Throws e (storeEnv env' (OrderBy_members operatorId driverCtx node))
      [SortBufferCreated (engineArguments operatorId driverCtx node)]
  /\ sortBuffer_ (storeEnv env' (OrderBy_members operatorId driverCtx node))
     = None.
Proof.
  intros Htrack Hreal Hlen Hnew. split; [|reflexivity].
  unfold OrderBy_new, OrderBy_body. steps. cbn. rewrite Htrack.
  rewrite (resolveSortingKeys_resolved (outputType node)) by assumption.
  cbn. unfold makeSortBuffer.
  change (SortBuffer_new _ _)
    with (SortBuffer_new (engineArguments operatorId driverCtx node)
            (engineEnv (OrderBy_members operatorId driverCtx node))).
  rewrite Hnew. reflexivity.
Qed.
(** ** More on the entry points *)

(** X4: [addInput] looks at no lifecycle flag: whether or not the input has
    been closed or the output finished, an operator with its engine makes
    exactly one call, handing the batch to the engine; whether that returns
    or throws, [finished_], [noMoreInput_] and the spill configuration are
    as before and the engine is still in place. *)
Theorem addInput_forwards_in_any_phase
    (this : OrderBy) (sb : SortBuffer) (input : RowVectorPtr) :
  sortBuffer_ this = Some sb ->
  callsOf (addInput input this) = [SortBufferAddInput input]
  /\ exists this',
       objectOf (addInput input this) = Some this'
       /\ finished_ this' = finished_ this
       /\ noMoreInput_ (base this') = noMoreInput_ (base this)
       /\ spillConfig_ (base this') = spillConfig_ (base this)
       /\ sortBuffer_ this' <> None.
Proof.
  intros Hengine. unfold addInput, callSortBuffer. rewrite Hengine.
  destruct (SortBuffer_addInput input (sb, engineEnv this))
    as [[] [sb' env']|e [sb' env']]; cbn;
    (split; [reflexivity|]); eexists; (split; [reflexivity|]); cbn;
    repeat split; discriminate.
Qed.

(** X5: [noMoreInput] closes the input before it asks the engine to
    finalize: whether the call returns or the engine throws, [noMoreInput_]
    is set afterwards, and [finished_] is as before. *)
Theorem noMoreInput_closes_input_first (this this' : OrderBy) :
  objectOf (noMoreInput this) = Some this' ->
  noMoreInput_ (base this') = true /\ finished_ this' = finished_ this.
Proof.
  method. branches; intros Heq; try discriminate; injection Heq as <-; cbn;
    split; reflexivity.
Qed.

(** X6: when [noMoreInput] returns, the engine was finalized first and then
    asked for its spill statistics; they are recorded exactly when the
    finalized engine reports some. *)
Theorem noMoreInput_records_spill_stats
    (this this' : OrderBy) (calls : list Event) :
  noMoreInput this = Returns tt this' calls ->
  exists sb',
    sortBuffer_ this' = Some sb'
    /\ calls
       = (SortBufferNoMoreInput :: SortBufferSpilledStats
          :: match SortBuffer_spilledStats sb' with
             | Some spillStats => [OperatorRecordSpillStats spillStats]
             | None => []
             end).
Proof.
  method. branches; intros Heq; try discriminate; injection Heq as <- <-; cbn;
    eexists; (split; [reflexivity|]);
    match goal with H : SortBuffer_spilledStats _ = _ |- _ => rewrite H end;
    reflexivity.
Qed.

(** X7: after [abort] has returned, [addInput] and [noMoreInput] dereference
    the null engine pointer, and so does [getOutput] unless it returns at
    its first line, that is, unless the operator is finished or its input
    has not been closed. *)
Theorem entry_points_after_abort
    (before this : OrderBy) (calls : list Event) (input : RowVectorPtr) :
  abort before = Returns tt this calls ->
  addInput input this = Undefined
  /\ noMoreInput this = Undefined
  /\ getOutput this
     = if finished_ this || negb (noMoreInput_ (base this))
       then Returns None this [] else Undefined.
Proof.
  intros Haborted.
  pose proof (abort_leaves_no_engine before this calls Haborted) as Hnull.
  repeat split.
  - unfold addInput, callSortBuffer. rewrite Hnull. reflexivity.
  - method. rewrite Hnull. reflexivity.
  - method. destruct (finished_ this || negb (noMoreInput_ (base this)));
      [reflexivity|]. cbn. rewrite Hnull. reflexivity.
Qed.

(** X8: once the input is closed and the output not finished, [getOutput]
    makes one call to the engine and returns the very batch the engine
    returned, setting [finished_] exactly when that batch is null; when the
    engine throws, the exception passes through and the operator is still
    not finished. *)
Theorem getOutput_engine_path (this : OrderBy) (sb : SortBuffer) :
  noMoreInput_ (base this) = true ->
  finished_ this = false ->
  sortBuffer_ this = Some sb ->
  match SortBuffer_getOutput (sb, engineEnv this) with
  | Ok output (sb', env') =>
      getOutput this
      = Returns output
          (set_finished (isNull output)
             (set_sortBuffer (Some sb') (storeEnv env' this)))
          [SortBufferGetOutput]
  | Raise e (sb', env') =>
      getOutput this
      = Throws e (set_sortBuffer (Some sb') (storeEnv env' this))
          [SortBufferGetOutput]
      /\ finished_ (set_sortBuffer (Some sb') (storeEnv env' this)) = false
  end.
Proof.
  intros Hclosed Hfin Hengine. method. rewrite Hfin, Hclosed. cbn.
  rewrite Hengine.
  destruct (SortBuffer_getOutput (sb, engineEnv this))
    as [output [sb' env']|e [sb' env']]; cbn; [reflexivity|].
  split; reflexivity.
Qed.

(** While [getOutput] returns at its first line, so does every later one. *)
Lemma pull_short_circuit (this : OrderBy) (n : nat) :
  finished_ this || negb (noMoreInput_ (base this)) = true ->
  pull n this = Returns (repeat None n) this [].
Proof.
  intros Hguard. induction n as [|n IH]; [reflexivity|].
  cbn [pull repeat]. steps.
  rewrite (getOutput_short_circuit this Hguard). rewrite IH. reflexivity.
Qed.

(** X9: whatever the engine does, a run of [getOutput] calls that all return
    yields some batches followed only by nulls, never a batch after a null;
    every call it makes is an engine [getOutput], and there is at most one
    more of them than batches delivered. *)
Theorem pull_batches_then_nulls (n : nat) :
  forall (this this' : OrderBy) (outputs : list RowVectorPtr)
         (calls : list Event),
    pull n this = Returns outputs this' calls ->
    exists (batches : list RowVector) (nulls asked : nat),
      outputs = (map Some batches ++ repeat None nulls)%list
      /\ calls = repeat SortBufferGetOutput asked
      /\ (asked <= length batches + 1)%nat
      /\ (length batches + nulls = n)%nat.
Proof.
  induction n as [|n IH]; intros this this' outputs calls.
  - cbn. intros Heq. injection Heq as <- _ <-. exists [], 0%nat, 0%nat.
    cbn. repeat split. lia.
  - destruct (finished_ this || negb (noMoreInput_ (base this))) eqn:Hguard.
    + rewrite (pull_short_circuit this (S n) Hguard).
      intros Heq. injection Heq as <- _ <-.
      exists [], (S n), 0%nat. cbn. repeat split. lia.
    + apply orb_false_elim in Hguard. destruct Hguard as [Hfin Hclosed].
      apply negb_false_iff in Hclosed.
      cbn [pull]. steps.
      destruct (getOutput this) as [output this1 calls1|e this1 calls1|]
        eqn:Hfirst; [|discriminate..].
      destruct (getOutput_sets_finished this this1 output calls1
                  Hfin Hclosed Hfirst) as [Hfin1 ->].
      destruct output as [batch|]; cbn in Hfin1.
      * specialize (IH this1).
        destruct (pull n this1) as [rest this2 calls2|e this2 calls2|]
          eqn:Hrest; [|discriminate..].
        destruct (IH this2 rest calls2 eq_refl)
          as (batches & nulls & asked & -> & -> & Hasked & Hlen).
        intros Heq. injection Heq as <- _ <-.
        exists (batch :: batches), nulls, (S asked). cbn.
        rewrite app_nil_r. repeat split; lia.
      * rewrite (pull_short_circuit this1 n)
          by (rewrite Hfin1; reflexivity).
        intros Heq. injection Heq as <- _ <-.
        exists [], (S n), 1%nat. cbn. repeat split. lia.
Qed.
(** ** More lifecycle invariants *)

(** With its engine in place, no entry point dereferences a null pointer. *)
Lemma engine_present_defined (c : Call) (this : OrderBy) :
  sortBuffer_ this <> None -> invoke c this <> Undefined.
Proof.
  intros Hengine. destruct c; method; branches; cbn; congruence.
Qed.

(** X10: an operator built by the constructor and then driven through any
    entry points other than [abort], whether they return or throw, keeps
    its engine and its usage-tracking pool, so that every entry point
    invoked on it, [abort] included, either returns or throws: none has
    undefined behaviour. *)
Theorem live_operator_never_undefined (this : OrderBy) (c : Call) :
  Alive this ->
  sortBuffer_ this <> None
  /\ pool_trackUsage (pool_ (base this)) = true
  /\ invoke c this <> Undefined.
Proof.
  intros Halive. destruct (Alive_invariant this Halive) as [Hengine Hpool].
  repeat split; try assumption.
  apply engine_present_defined. exact Hengine.
Qed.

(** An entry point other than [abort] keeps "finished only after the input
    was closed". *)
Lemma finished_after_closed_step (c : Call) (this this' : OrderBy) :
  c <> CallAbort ->
  (finished_ this = true -> noMoreInput_ (base this) = true) ->
  objectOf (invoke c this) = Some this' ->
  finished_ this' = true -> noMoreInput_ (base this') = true.
Proof.
  intros Hcall Hinv.
  destruct (finished_ this) eqn:Hfin;
    destruct (noMoreInput_ (base this)) eqn:Hclosed;
    try (specialize (Hinv eq_refl); discriminate);
    (destruct c; [| | | |contradiction]; method; rewrite ?Hfin, ?Hclosed; cbn;
     branches; cbn; intros Heq; try discriminate; injection Heq as <-; cbn;
     rewrite ?Hfin, ?Hclosed; intros Hdone;
     first [reflexivity | exact Hdone | discriminate | assumption]).
Qed.

(** X11: an operator that has not been aborted is finished only if its input
    has been closed: [finished_] is set by [getOutput] alone, and only past
    the test of [noMoreInput_]. *)
Theorem live_operator_finished_after_input_closed (this : OrderBy) :
  Alive this ->
  finished_ this = true ->
  noMoreInput_ (base this) = true.
Proof.
  induction 1 as [operatorId driverCtx node this calls Hnew
                 |c this this' Halive IH Hcall Hstep].
  - destruct (OrderBy_new_returns _ _ _ _ _ Hnew)
      as (_ & _ & _ & _ & Hfin & _).
    rewrite Hfin. discriminate.
  - exact (finished_after_closed_step c this this' Hcall IH Hstep).
Qed.

(** Once the input is closed, an entry point other than [abort] makes no
    spill call and leaves the input closed. *)
Lemma input_closed_step (c : Call) (this : OrderBy) :
  c <> CallAbort ->
  noMoreInput_ (base this) = true ->
  (forall startRowIdx targetBytes,
      ~ In (SortBufferSpill startRowIdx targetBytes)
          (callsOf (invoke c this)))
  /\ (forall this',
        objectOf (invoke c this) = Some this' ->
        noMoreInput_ (base this') = true).
Proof.
  intros Hcall Hclosed. split.
  - intros startRowIdx targetBytes.
    destruct c; [| | | |contradiction]; method; rewrite ?Hclosed; cbn;
      branches; cbn; intros Hin; intuition discriminate.
  - intros this'.
    destruct c; [| | | |contradiction]; method; rewrite ?Hclosed; cbn;
      branches; cbn; intros Heq; try discriminate; injection Heq as <-; cbn;
      first [reflexivity | exact Hclosed].
Qed.

(** X12: once [noMoreInput_] is set, no schedule of entry points without
    [abort] ever makes the engine spill: whatever [reclaim] calls it
    contains, and wherever they stand, the calls recorded contain no
    [spill]. *)
Theorem input_closed_never_spills (schedule : list Call) :
  forall (this : OrderBy) (startRowIdx targetBytes : Z),
    noMoreInput_ (base this) = true ->
    ~ In CallAbort schedule ->
    ~ In (SortBufferSpill startRowIdx targetBytes)
        (callsOf (invokeAll schedule this)).
Proof.
  induction schedule as [|c schedule IH];
    intros this startRowIdx targetBytes Hclosed Hnoabort.
  - cbn. intros [].
  - assert (Hcall : c <> CallAbort) by (intros ->; apply Hnoabort; left; reflexivity).
    assert (Hrest : ~ In CallAbort schedule)
      by (intros Hin; apply Hnoabort; right; exact Hin).
    destruct (input_closed_step c this Hcall Hclosed) as [Hcalls Hnext].
    specialize (Hcalls startRowIdx targetBytes).
    cbn [invokeAll]. steps.
    destruct (invoke c this) as [[] this1 calls1|e this1 calls1|] eqn:Hfirst;
      cbn in Hcalls; [|exact Hcalls|intros []].
    specialize (IH this1 startRowIdx targetBytes (Hnext this1 eq_refl) Hrest).
    destruct (invokeAll schedule this1) as [[] this2 calls2|e this2 calls2|];
      cbn in IH |- *; [| |intros []];
      rewrite in_app_iff; intros [Hin|Hin]; contradiction.
Qed.

(** X13: a second [abort] finds no engine to delete: once [abort] has
    returned, another one whose base-class hook returns makes that hook call
    only and returns with the engine pointer still null. *)
Theorem abort_twice
    (before this : OrderBy) (calls : list Event) (b : Operator) :
  abort before = Returns tt this calls ->
  Operator_abort (base this) = Ok tt b ->
  abort this = Returns tt (set_base b this) [OperatorAbort]
  /\ sortBuffer_ (set_base b this) = None.
Proof.
  intros Haborted Hhook.
  pose proof (abort_leaves_no_engine before this calls Haborted) as Hnull.
  split; [|exact Hnull].
  unfold abort. steps. unfold callOperatorAbort, resetSortBuffer.
  rewrite Hhook. cbn. rewrite Hnull. reflexivity.
Qed.
(** X14: the end of the stream is permanent: once [finished_] is set, after
    any schedule of entry points, [abort] and [reclaim] included, and
    whether the schedule ran to its end or stopped at an exception, the
    operator is still finished and [getOutput] returns the null batch
    without a call. *)
Theorem finished_is_permanent (schedule : list Call) :
  forall (this this' : OrderBy),
    finished_ this = true ->
    objectOf (invokeAll schedule this) = Some this' ->
    finished_ this' = true /\ getOutput this' = Returns None this' [].
Proof.
  assert (Hlast : forall this', finished_ this' = true ->
            finished_ this' = true /\ getOutput this' = Returns None this' []).
  { intros this' Hfin. split; [exact Hfin|].
    apply getOutput_short_circuit. rewrite Hfin. reflexivity. }
  induction schedule as [|c schedule IH]; intros this this' Hfin.
  - cbn. intros Heq. injection Heq as <-. apply Hlast. exact Hfin.
  - cbn [invokeAll]. steps.
    destruct (invoke c this) as [[] this1 calls1|e this1 calls1|] eqn:Hfirst;
      cbn; [| |discriminate].
    + assert (Hfin1 : finished_ this1 = true).
      { apply (finished_stable c this this1 Hfin). rewrite Hfirst. reflexivity. }
      specialize (IH this1 this' Hfin1).
      destruct (invokeAll schedule this1) as [[] this2 calls2|e this2 calls2|];
        cbn in IH |- *; [exact IH|exact IH|discriminate].
    + intros Heq. injection Heq as <-. apply Hlast.
      apply (finished_stable c this this1 Hfin). rewrite Hfirst. reflexivity.
Qed.
End Properties.

(** * The operator at work on the small instance *)

Section Scenarios.
Import Demo.

(** Two batches in, one sorted batch out, then the end of stream. *)
Example demo_sorted_output :
  pull 3 sealed
  = Returns
      [Some [(Some 1%Z, "b"); (Some 2%Z, "c"); (Some 3%Z, "a")]; None; None]
      drained [SortBufferGetOutput; SortBufferGetOutput].
Proof. vm_compute. reflexivity. Qed.

(** Nulls go where the sort order puts them. *)
Example demo_null_placement :
  let rows := Some [(None, "w"); (Some 5%Z, "x"); (None, "y"); (Some 1%Z, "z")] in
  batchesOf (sortWith (mkSortOrder true true) [rows] 1)
  = [Some [(None, "w"); (None, "y"); (Some 1%Z, "z"); (Some 5%Z, "x")]]
  /\ batchesOf (sortWith (mkSortOrder true false) [rows] 1)
     = [Some [(Some 1%Z, "z"); (Some 5%Z, "x"); (None, "w"); (None, "y")]].
Proof. vm_compute. split; reflexivity. Qed.

(** A spill in the input phase does not change what comes out. *)
Example demo_spill_transparent :
  (reclaim 100 stats0 ;; noMoreInput ;; pull 2) loaded
  = afterCalls
      [SortBufferSpill 0 100; PoolRelease; SortBufferNoMoreInput;
       SortBufferSpilledStats; OperatorRecordSpillStats 1%N]
      (match pull 2 sealed with
       | Returns batches _ calls =>
           Returns batches
             (after ((reclaim 100 stats0 ;; noMoreInput ;; pull 2) loaded)
                noOperator)
             calls
       | other => other
       end).
Proof. vm_compute. reflexivity. Qed.

Lemma reclaim_policy_witness :
  (exists this',
      reclaim 100 stats0 loaded
      = Returns stats0 this' [SortBufferSpill 0 100; PoolRelease]
      /\ numSpillRuns_ this' = 1%N
      /\ pool_usage (pool_ (base this')) = {| used := 0; reserved := 0 |})
  /\ reclaim 100 stats41 sealed
     = Returns {| numNonReclaimableAttempts := 42 |} sealed
         [LogWarning refusalWarning]
  /\ reclaim 100 statsMax sealed
     = Returns {| numNonReclaimableAttempts := 0 |} sealed
         [LogWarning refusalWarning]
  /\ (reclaim 100 stats41 ;; pull 2) sealed
     = afterCalls [LogWarning refusalWarning] (pull 2 sealed).
Proof.
  split; [|split; [|split]].
  - pose proof (@reclaim_policy collaborators ops loaded _ 100%Z stats0
                  eq_refl eq_refl eq_refl) as Hspill.
    vm_compute in Hspill. destruct Hspill as [Hspill _].
    eexists. split; [exact Hspill|]. split; reflexivity.
  - pose proof (@reclaim_policy collaborators ops sealed _ 100%Z stats41
                  eq_refl eq_refl eq_refl) as Hrefuse.
    exact (proj1 Hrefuse).
  - pose proof (@reclaim_policy collaborators ops sealed _ 100%Z statsMax
                  eq_refl eq_refl eq_refl) as Hrefuse.
    exact (proj1 Hrefuse).
  - pose proof (@reclaim_policy collaborators ops sealed _ 100%Z stats41
                  eq_refl eq_refl eq_refl) as Hrefuse.
    exact (proj2 Hrefuse 2%nat).
Defined.

Lemma reclaim_preconditions_fatal_witness :
  reclaim 100 stats0 busy
  = Throws (VeloxRuntimeError "!nonReclaimableSection_" "") busy []
  /\ reclaim 100 stats0 freshNoSpill
     = Throws (VeloxRuntimeError "canReclaim()" "") freshNoSpill [].
Proof.
  split.
  - exact (@reclaim_preconditions_fatal collaborators ops busy 100%Z stats0
             (or_intror eq_refl)).
  - exact (@reclaim_preconditions_fatal collaborators ops freshNoSpill
             100%Z stats0 (or_introl eq_refl)).
Defined.

Lemma getOutput_end_of_stream_idempotent_witness :
  getOutput producing = Returns None drained [SortBufferGetOutput]
  /\ finished_ drained = true
  /\ getOutput drained = Returns None drained []
  /\ pull 3 drained = Returns [None; None; None] drained [].
Proof.
  split; [reflexivity|].
  exact (@getOutput_end_of_stream_idempotent collaborators ops producing
           drained [SortBufferGetOutput] 3 eq_refl eq_refl).
Defined.

Lemma getOutput_before_noMoreInput_witness :
  noMoreInput_ (base loaded) = false
  /\ getOutput loaded = Returns None loaded [].
Proof.
  split; [reflexivity|].
  exact (@getOutput_before_noMoreInput collaborators ops loaded eq_refl).
Defined.

Lemma constant_sorting_key_rejected_witness :
  OrderBy_new 1 (ctx true None) planConstantKey
  = Throws
      (VeloxRuntimeError "channel != kConstantChannel"
         "OrderBy doesn't allow constant sorting keys")
      (OrderBy_members 1 (ctx true None) planConstantKey) []
  /\ sortBuffer_ (OrderBy_members 1 (ctx true None) planConstantKey) = None.
Proof.
  refine (@constant_sorting_key_rejected collaborators ops 1%Z
            (ctx true None) planConstantKey (Constant 7) _ _ eq_refl).
  - cbn. lia.
  - cbn. right. left. reflexivity.
Defined.

Lemma abort_releases_engine_witness :
  (exists this',
      abort fresh = Returns tt this' [OperatorAbort; SortBufferDestroyed]
      /\ sortBuffer_ this' = None)
  /\ (exists this',
        abort loaded = Returns tt this' [OperatorAbort; SortBufferDestroyed]
        /\ sortBuffer_ this' = None)
  /\ (exists this',
        abort producing
        = Returns tt this' [OperatorAbort; SortBufferDestroyed]
        /\ sortBuffer_ this' = None)
  /\ (exists this',
        abort drained = Returns tt this' [OperatorAbort; SortBufferDestroyed]
        /\ sortBuffer_ this' = None)
  /\ (exists this',
        abort aborted = Returns tt this' [OperatorAbort]
        /\ sortBuffer_ this' = None).
Proof.
  repeat split.
  - destruct (@abort_releases_engine collaborators ops fresh _ eq_refl)
      as (this' & Habort & Hnull & _).
    exists this'. split; [exact Habort | exact Hnull].
  - destruct (@abort_releases_engine collaborators ops loaded _ eq_refl)
      as (this' & Habort & Hnull & _).
    exists this'. split; [exact Habort | exact Hnull].
  - destruct (@abort_releases_engine collaborators ops producing _ eq_refl)
      as (this' & Habort & Hnull & _).
    exists this'. split; [exact Habort | exact Hnull].
  - destruct (@abort_releases_engine collaborators ops drained _ eq_refl)
      as (this' & Habort & Hnull & _).
    exists this'. split; [exact Habort | exact Hnull].
  - destruct (@abort_releases_engine collaborators ops aborted _ eq_refl)
      as (this' & Habort & Hnull & _).
    exists this'. split; [exact Habort | exact Hnull].
Defined.

(** C8 fails on the code: an operator aborted while still accepting input
    has a null engine pointer, and a [reclaim] on it, with both
    preconditions met, dereferences that pointer instead of returning. *)
Lemma reclaim_after_abort_unsafe :
  abort loaded = Returns tt aborted [OperatorAbort; SortBufferDestroyed]
  /\ sortBuffer_ aborted = None
  /\ canReclaim aborted = true
  /\ nonReclaimableSection_ (base aborted) = false
  /\ reclaim 100 stats0 aborted = Undefined
  /\ ~ (exists stats this calls,
          reclaim 100 stats0 aborted = Returns stats this calls).
Proof.
  repeat split. intros (stats & this & calls & Hreturns). discriminate.
Qed.

Lemma reclaim_after_abort_input_closed_witness :
  abort sealed = Returns tt abortedSealed [OperatorAbort; SortBufferDestroyed]
  /\ sortBuffer_ abortedSealed = None
  /\ reclaim 100 stats41 abortedSealed
     = Returns {| numNonReclaimableAttempts := 42 |} abortedSealed
         [LogWarning
            "Can't reclaim from order by operator which has started producing output: op.1.0.0.OrderBy, usage: 0B, reservation: some bytes"].
Proof.
  split; [reflexivity|].
  exact (@reclaim_after_abort_input_closed collaborators ops sealed
           abortedSealed [OperatorAbort; SortBufferDestroyed] 100%Z stats41
           eq_refl eq_refl eq_refl eq_refl).
Defined.

Lemma reclaim_refused_once_input_closed_witness :
  noMoreInput loaded
  = Returns tt sealed [SortBufferNoMoreInput; SortBufferSpilledStats]
  /\ finished_ sealed = false
  /\ reclaim 100 stats41 sealed
     = Returns {| numNonReclaimableAttempts := 42 |} sealed
         [LogWarning refusalWarning].
Proof.
  split; [reflexivity|]. split; [reflexivity|].
  exact (proj2 (proj2 (proj2
           (@reclaim_refused_once_input_closed collaborators ops loaded
              sealed [SortBufferNoMoreInput; SortBufferSpilledStats] 100%Z
              stats41 eq_refl eq_refl eq_refl)))).
Defined.

Lemma untracked_pool_rejected_witness :
  OrderBy_new 1 (ctx false (Some "/tmp/spill")) plan
  = Throws (VeloxRuntimeError "pool()->trackUsage()" "")
      (OrderBy_members 1 (ctx false (Some "/tmp/spill")) plan) []
  /\ pool_trackUsage (pool_ (base fresh)) = true.
Proof.
  split.
  - exact (proj1 (proj1 (@untracked_pool_rejected collaborators ops 1%Z
                           (ctx false (Some "/tmp/spill")) plan) eq_refl)).
  - refine (proj2 (@untracked_pool_rejected collaborators ops 1%Z
                     (ctx true (Some "/tmp/spill")) plan) fresh
              [SortBufferCreated _] eq_refl).
Defined.
End Scenarios.


(** * More runs on the small instance *)

Section MoreScenarios.
Import Demo.

Lemma sealed_is_alive : Alive sealed.
Proof.
  refine (@Alive_call collaborators ops CallNoMoreInput loaded sealed _ _ eq_refl);
    [|discriminate].
  refine (@Alive_call collaborators ops (CallAddInput batch2)
            (after (addInput batch1 fresh) noOperator) loaded _ _ eq_refl);
    [|discriminate].
  refine (@Alive_call collaborators ops (CallAddInput batch1) fresh _ _ _ eq_refl);
    [|discriminate].
  exact (@Alive_new collaborators ops 1%Z (ctx true (Some "/tmp/spill")) plan fresh
           [SortBufferCreated
              (engineArguments 1 (ctx true (Some "/tmp/spill")) plan)]
           eq_refl).
Defined.

Lemma drained_is_alive : Alive drained.
Proof.
  refine (@Alive_call collaborators ops CallGetOutput producing drained _ _ eq_refl);
    [|discriminate].
  refine (@Alive_call collaborators ops CallGetOutput sealed producing sealed_is_alive _ eq_refl).
  discriminate.
Defined.

Lemma constructor_engine_arguments_witness :
  OrderBy_new 1 (ctx true (Some "/tmp/spill")) plan
  = Returns tt fresh
      [SortBufferCreated
         {| sb_inputType := 2%nat;
            sb_sortColumnIndices := [0%N];
            sb_sortCompareFlags := [mkCompareFlags true true false NoStop];
            sb_outputBatchRows := 1024;
            sb_spillConfig := Some "/tmp/spill";
            sb_spillMemoryThreshold := 0 |}]
  /\ spillConfig_ (base fresh) = Some "/tmp/spill"
  /\ finished_ fresh = false.
Proof.
  split; [reflexivity|].
  destruct (@constructor_engine_arguments collaborators ops 1%Z
              (ctx true (Some "/tmp/spill")) plan fresh _ eq_refl)
    as (_ & Hconfig & _ & Hfin & _).
  split; [exact Hconfig | exact Hfin].
Defined.

Lemma constructor_missing_sort_order_witness :
  OrderBy_new 1 (ctx true (Some "/tmp/spill")) planMissingOrder = Undefined.
Proof.
  refine (@constructor_missing_sort_order collaborators ops 1%Z
            (ctx true (Some "/tmp/spill")) planMissingOrder eq_refl _ _).
  - repeat constructor; cbn; discriminate.
  - cbn. lia.
Defined.

Lemma constructor_engine_failure_witness :
  @OrderBy_new collaborators brokenOps 1 ctxNoRows plan
  = Throws outOfMemory (OrderBy_members 1 ctxNoRows plan)
      [SortBufferCreated
         (@engineArguments collaborators brokenOps 1 ctxNoRows plan)].
Proof.
  refine (proj1 (@constructor_engine_failure collaborators brokenOps 1%Z
                   ctxNoRows plan outOfMemory _ eq_refl _ _ eq_refl)).
  - repeat constructor; cbn; discriminate.
  - cbn. lia.
Defined.

Lemma addInput_forwards_in_any_phase_witness :
  finished_ drained = true
  /\ callsOf (addInput batch1 drained) = [SortBufferAddInput batch1].
Proof.
  split; [reflexivity|].
  exact (proj1 (@addInput_forwards_in_any_phase collaborators ops drained _
                  batch1 eq_refl)).
Defined.

Lemma noMoreInput_closes_input_first_witness :
  @noMoreInput collaborators brokenOps brokenFresh
  = Throws spillIOError brokenSealed [SortBufferNoMoreInput]
  /\ noMoreInput_ (base brokenFresh) = false
  /\ noMoreInput_ (base brokenSealed) = true.
Proof.
  split; [reflexivity|]. split; [reflexivity|].
  exact (proj1 (@noMoreInput_closes_input_first collaborators brokenOps
                  brokenFresh brokenSealed eq_refl)).
Defined.

Lemma noMoreInput_records_spill_stats_witness :
  exists sb',
    sortBuffer_ spilledSealed = Some sb'
    /\ [SortBufferNoMoreInput; SortBufferSpilledStats;
        OperatorRecordSpillStats 1%N]
       = (SortBufferNoMoreInput :: SortBufferSpilledStats
          :: match SortBuffer_spilledStats sb' with
             | Some spillStats => [OperatorRecordSpillStats spillStats]
             | None => []
             end).
Proof.
  exact (@noMoreInput_records_spill_stats collaborators ops spilled
           spilledSealed
           [SortBufferNoMoreInput; SortBufferSpilledStats;
            OperatorRecordSpillStats 1%N] eq_refl).
Defined.

Lemma entry_points_after_abort_witness :
  (addInput batch1 aborted = Undefined
   /\ noMoreInput aborted = Undefined
   /\ getOutput aborted = Returns None aborted [])
  /\ getOutput abortedSealed = Undefined.
Proof.
  split.
  - exact (@entry_points_after_abort collaborators ops loaded aborted
             [OperatorAbort; SortBufferDestroyed] batch1 eq_refl).
  - exact (proj2 (proj2
             (@entry_points_after_abort collaborators ops sealed abortedSealed
                [OperatorAbort; SortBufferDestroyed] batch1 eq_refl))).
Defined.

Lemma getOutput_engine_path_witness :
  getOutput sealed
  = Returns (Some [(Some 1%Z, "b"); (Some 2%Z, "c"); (Some 3%Z, "a")])
      producing [SortBufferGetOutput]
  /\ (@getOutput collaborators brokenOps brokenSealed
      = Throws spillIOError brokenSealed [SortBufferGetOutput]
      /\ finished_ brokenSealed = false).
Proof.
  split.
  - exact (@getOutput_engine_path collaborators ops sealed _
             eq_refl eq_refl eq_refl).
  - exact (@getOutput_engine_path collaborators brokenOps brokenSealed _
             eq_refl eq_refl eq_refl).
Defined.

Lemma pull_batches_then_nulls_witness :
  exists (batches : list RowVector) (nulls asked : nat),
    [Some [(Some 1%Z, "b"); (Some 2%Z, "c"); (Some 3%Z, "a")]; None; None]
    = (map Some batches ++ repeat None nulls)%list
    /\ [SortBufferGetOutput; SortBufferGetOutput]
       = repeat SortBufferGetOutput asked
    /\ (asked <= length batches + 1)%nat
    /\ (length batches + nulls = 3)%nat.
Proof.
  exact (@pull_batches_then_nulls collaborators ops 3 sealed drained _ _
           eq_refl).
Defined.

Lemma live_operator_never_undefined_witness :
  sortBuffer_ sealed <> None
  /\ pool_trackUsage (pool_ (base sealed)) = true
  /\ invoke (CallReclaim 100 stats0) sealed <> Undefined.
Proof.
  exact (@live_operator_never_undefined collaborators ops sealed
           (CallReclaim 100 stats0) sealed_is_alive).
Defined.

Lemma live_operator_finished_after_input_closed_witness :
  finished_ drained = true /\ noMoreInput_ (base drained) = true.
Proof.
  split; [reflexivity|].
  exact (@live_operator_finished_after_input_closed collaborators ops drained
           drained_is_alive eq_refl).
Defined.

Lemma input_closed_never_spills_witness :
  ~ In (SortBufferSpill 0 100)
      (callsOf
         (invokeAll
            [CallReclaim 100 stats0; CallGetOutput; CallReclaim 100 stats0;
             CallAddInput batch2; CallGetOutput]
            sealed)).
Proof.
  refine (@input_closed_never_spills collaborators ops _ sealed 0%Z 100%Z
            eq_refl _).
  cbn. intros [H|[H|[H|[H|[H|[]]]]]]; discriminate.
Defined.

Lemma abort_twice_witness :
  abort aborted = Returns tt aborted [OperatorAbort]
  /\ sortBuffer_ aborted = None.
Proof.
  exact (@abort_twice collaborators ops loaded aborted
           [OperatorAbort; SortBufferDestroyed] (base aborted)
           eq_refl eq_refl).
Defined.

Lemma finished_is_permanent_witness :
  finished_ weathered = true
  /\ getOutput weathered = Returns None weathered [].
Proof.
  apply (@finished_is_permanent collaborators ops roughSchedule drained
           weathered).
  - vm_compute. reflexivity.
  - vm_compute. reflexivity.
Defined.
End MoreScenarios.
